(** * gosentry: composable reliability policies

    A shallow embedding of the execution pipeline ([Execute]) and of the four
    policies of package [policies] (Retry, Timeout, RateLimit,
    CircuitBreaker), with the properties of their specification.

    Conventions of the embedding

    - Go's [int], [int64] and [time.Duration] are 64-bit two's complement
      integers: they are values of [Z] and every arithmetic result is wrapped
      by [wrap64].
    - A Go [error] is [option GoError]; [None] is [nil].  A result of type
      [any] is [option A]; [None] is [nil].
    - Everything a handler can read or change apart from the private state of
      a policy (the clock, the cancellation signals, the random source, the
      operation's own variables) is the world [W]; effectful code passes it
      explicitly.  The private state a policy closure captures (the token
      bucket, the breaker) is paired with the world.
    - Code that can panic returns a [Result].
    - float64 is IEEE 754 binary64 as specified by [SpecFloat], with
      rounding to nearest, ties to even. *)

From Stdlib Require Import ZArith List Bool String Lia.
From Stdlib Require Import SpecFloat.
Import ListNotations.
Local Open Scope string_scope.
Local Open Scope Z_scope.

(* ===================================================================== *)
(** ** Machine integers and time *)
(* ===================================================================== *)

Definition minInt64 : Z := - 2 ^ 63.
Definition maxInt64 : Z := 2 ^ 63 - 1.

(** Two's complement wrap-around of a 64-bit signed result. *)
Definition wrap64 (z : Z) : Z := (z + 2 ^ 63) mod 2 ^ 64 - 2 ^ 63.

Definition inInt64 (z : Z) : Prop := minInt64 <= z <= maxInt64.

(** [uint(x)] for an [int] x. *)
Definition toUint64 (z : Z) : Z := z mod 2 ^ 64.

(** [x << s] on int64, for a shift count [s] of type [uint]: counts of 64 and
    more give 0. *)
Definition shl64 (x s : Z) : Z :=
  if 64 <=? s then 0 else wrap64 (Z.shiftl x s).

(** [time.Duration]: nanoseconds, int64. *)
Definition Duration := Z.

Definition Nanosecond : Duration := 1.
Definition Millisecond : Duration := 1000000.
Definition Second : Duration := 1000000000.

(** [time.Time]: an instant, in nanoseconds from the zero value of the type. *)
Definition Time := Z.

(** [t.Sub(u)]: the difference, saturated to the range of a Duration. *)
Definition Sub (t u : Time) : Duration :=
  Z.max minInt64 (Z.min maxInt64 (t - u)).

(* ===================================================================== *)
(** ** Errors, outcomes, panics *)
(* ===================================================================== *)

Inductive GoError : Type :=
| Canceled                 (* context.Canceled *)
| DeadlineExceeded         (* context.DeadlineExceeded *)
| ErrRateLimitExceeded     (* policies.ErrRateLimitExceeded *)
| ErrCircuitOpen           (* policies.ErrCircuitOpen *)
| ErrCircuitHalfOpenBusy   (* policies.ErrCircuitHalfOpenBusy *)
| ErrorsNew (msg : string) (* a value made by errors.New inside a policy *)
| OpError (id : nat).      (* an error value of the wrapped operation *)

Definition error : Type := option GoError.

Definition isNil (e : error) : bool :=
  match e with None => true | Some _ => false end.

(** The value of a function that can panic. *)
Inductive Result (X : Type) : Type :=
| Ok (x : X)
| Panic (reason : string).

Arguments Ok {X} x.
Arguments Panic {X} reason.

Definition bind {X Y : Type} (r : Result X) (k : X -> Result Y) : Result Y :=
  match r with
  | Ok x => k x
  | Panic m => Panic m
  end.

Notation "'let*' x ':=' r 'in' k" := (bind r (fun x => k))
  (at level 10, x pattern, r at level 100, k at level 200).

(* ===================================================================== *)
(** ** Handlers, policies, Execute (package gosentry) *)
(* ===================================================================== *)

Section Pipeline.

(** [St]: everything a handler can read and change.  [Ctx]: context.Context.
    [A]: the non-nil results. *)
Variables (St Ctx A : Type).

(** The (result, error) pair a handler returns. *)
Definition Outcome : Type := (option A * error)%type.

(** type Handler func(ctx context.Context) (any, error) *)
Definition Handler : Type := Ctx -> St -> Result (Outcome * St).

(** type Policy func(next Handler) Handler *)
Definition Policy : Type := Handler -> Handler.

(** The loop of Execute,
      for i := len(policies) - 1; i >= 0; i-- { h = policies[i](h) }
    entered with [i = k - 1].  The index stays below [len(policies)], so the
    access never goes out of range. *)
Fixpoint wrapDownFrom (policies : list Policy) (k : nat) (h : Handler)
  : Handler :=
  match k with
  | O => h
  | S i =>
      match nth_error policies i with
      | Some p => wrapDownFrom policies i (p h)
      | None => fun _ _ => Panic "index out of range"
      end
  end.

(** func Execute(ctx, handler, policies ...Policy) (any, error) *)
Definition Execute (ctx : Ctx) (handler : Handler) (policies : list Policy)
  : St -> Result (Outcome * St) :=
  let h := wrapDownFrom policies (List.length policies) handler in
  h ctx.

(** Nesting, first policy outermost: [nest [p0; p1] h = p0 (p1 h)]. *)
Definition nest (policies : list Policy) (base : Handler) : Handler :=
  fold_right (fun p inner => p inner) base policies.

End Pipeline.

Arguments Execute {St Ctx A} ctx handler policies _.
Arguments nest {St Ctx A} policies base _ _.
Arguments wrapDownFrom {St Ctx A} policies k h _ _.

(* ===================================================================== *)
(** ** The runtime the policies rely on *)
(* ===================================================================== *)

(** What package [policies] takes from [context], [time] and [math/rand],
    over a world [W] and contexts [Ctx]. *)
Class Runtime (W Ctx : Type) : Type := {
  (** [ctx.Err()] *)
  ctxErr : Ctx -> W -> error;
  (** [context.WithTimeout(ctx, d)], made in the given world *)
  WithTimeout : Ctx -> Duration -> W -> Ctx;
  (** [time.Now()] *)
  timeNow : W -> Time;
  (** [time.Sleep(d)] *)
  Sleep : Duration -> W -> W;
  (** The world at the moment
        select { case <-timer.C: ...  case <-ctx.Done(): ... }
      returns, for a timer of the given duration. *)
  afterWait : Duration -> Ctx -> W -> W;
  (** The draw of the shared source that [rand.Int63n] reduces. *)
  Int63 : W -> Z * W
}.

Section Policies.

Context {W Ctx A : Type} {RT : Runtime W Ctx}.

(** [rand.Int63n(n)]: panics unless [n > 0], else a value of [[0, n)]. *)
Definition Int63n (n : Z) (w : W) : Result (Z * W) :=
  if n <=? 0 then Panic "invalid argument to Int63n"
  else let '(v, w') := Int63 w in Ok (v mod n, w').

(** Calling a func-typed field: a nil func panics. *)
Definition callNow (now : option (W -> Time)) (w : W) : Result Time :=
  match now with
  | Some f => Ok (f w)
  | None => Panic "nil func"
  end.

(* --------------------------------------------------------------------- *)
(** *** Retry *)
(* --------------------------------------------------------------------- *)

(** type BackoffStrategy string *)
Definition BackoffStrategy : Type := string.
Definition BackoffFixed : BackoffStrategy := "fixed".
Definition BackoffLinear : BackoffStrategy := "linear".
Definition BackoffExponential : BackoffStrategy := "exponential".

Record RetryOptions : Type := {
  MaxAttempts : Z;
  InitialDelay : Duration;
  MaxDelay : Duration;
  Backoff : BackoffStrategy;
  Jitter : bool
}.

Definition DefaultRetryOptions : RetryOptions := {|
  MaxAttempts := 3;
  InitialDelay := 100 * Millisecond;
  MaxDelay := 5 * Second;
  Backoff := BackoffExponential;
  Jitter := true
|}.

Definition applyDefaults (options : RetryOptions) : RetryOptions :=
  let defaults := DefaultRetryOptions in
  let options :=
    if MaxAttempts options =? 0
    then {| MaxAttempts := MaxAttempts defaults;
            InitialDelay := InitialDelay options;
            MaxDelay := MaxDelay options;
            Backoff := Backoff options;
            Jitter := Jitter options |}
    else options in
  let options :=
    if InitialDelay options =? 0
    then {| MaxAttempts := MaxAttempts options;
            InitialDelay := InitialDelay defaults;
            MaxDelay := MaxDelay options;
            Backoff := Backoff options;
            Jitter := Jitter options |}
    else options in
  let options :=
    if MaxDelay options =? 0
    then {| MaxAttempts := MaxAttempts options;
            InitialDelay := InitialDelay options;
            MaxDelay := MaxDelay defaults;
            Backoff := Backoff options;
            Jitter := Jitter options |}
    else options in
  let options :=
    if String.eqb (Backoff options) ""
    then {| MaxAttempts := MaxAttempts options;
            InitialDelay := InitialDelay options;
            MaxDelay := MaxDelay options;
            Backoff := Backoff defaults;
            Jitter := Jitter options |}
    else options in
  options.

(** The switch of computeDelay: the delay before jitter and before the cap. *)
Definition backoffDelay (attempt : Z) (opts : RetryOptions) : Duration :=
  if String.eqb (Backoff opts) BackoffFixed then
    InitialDelay opts
  else if String.eqb (Backoff opts) BackoffLinear then
    wrap64 (InitialDelay opts * wrap64 (attempt + 1))
  else if String.eqb (Backoff opts) BackoffExponential then
    wrap64 (InitialDelay opts * shl64 1 (toUint64 attempt))
  else
    InitialDelay opts.

(** The jitter step: [delay += time.Duration(rand.Int63n(int64(delay / 2)))]
    when jitter is on. *)
Definition addJitter (opts : RetryOptions) (delay : Duration) (w : W)
  : Result (Duration * W) :=
  if Jitter opts then
    let* (jitter, w') := Int63n (Z.quot delay 2) w in
    Ok (wrap64 (delay + jitter), w')
  else Ok (delay, w).

(** The final cap. *)
Definition capDelay (opts : RetryOptions) (delay : Duration) : Duration :=
  if MaxDelay opts <? delay then MaxDelay opts else delay.

(** func computeDelay(attempt int, opts RetryOptions) time.Duration *)
Definition computeDelay (attempt : Z) (opts : RetryOptions) (w : W)
  : Result (Duration * W) :=
  let delay := backoffDelay attempt opts in
  let* (delay, w') := addJitter opts delay w in
  Ok (capDelay opts delay, w').

(** The loop of Retry, entered at [attempt] with [remaining] iterations to
    go: [remaining] is [opts.MaxAttempts - attempt] while that is positive,
    so [remaining = 0] is the loop condition [attempt < opts.MaxAttempts]
    failing.

    The select on the timer and on ctx.Done() is [afterWait]: when the
    context is done in the world it returns in, the call returns (nil,
    ctx.Err()), through the second case or, had the timer won the draw,
    through the check that opens the next iteration. *)
Fixpoint retryLoop (opts : RetryOptions) (next : Handler W Ctx A) (ctx : Ctx)
    (remaining : nat) (attempt : Z) (lastErr : error) (w : W)
  : Result (Outcome A * W) :=
  match remaining with
  | O => Ok ((None, lastErr), w)
  | S remaining' =>
      match ctxErr ctx w with
      | Some e => Ok ((None, Some e), w)
      | None =>
          let* (out, w1) := next ctx w in
          let '(result, err) := out in
          match err with
          | None => Ok ((result, None), w1)
          | Some _ =>
              if attempt =? wrap64 (MaxAttempts opts - 1) then
                Ok ((None, err), w1)
              else
                let* (delay, w2) := computeDelay attempt opts w1 in
                let w3 := afterWait delay ctx w2 in
                match ctxErr ctx w3 with
                | Some e => Ok ((None, Some e), w3)
                | None =>
                    retryLoop opts next ctx remaining'
                      (wrap64 (attempt + 1)) err w3
                end
          end
      end
  end.

(** func Retry(options RetryOptions) resilience.Policy *)
Definition Retry (options : RetryOptions) : Policy W Ctx A :=
  let opts := applyDefaults options in
  fun next ctx w =>
    retryLoop opts next ctx (Z.to_nat (MaxAttempts opts)) 0 None w.

(* --------------------------------------------------------------------- *)
(** *** Timeout *)
(* --------------------------------------------------------------------- *)

(** type TimeoutOptions struct { Duration time.Duration }; the field is
    [TimeoutDuration] here, [Duration] being the type. *)
Record TimeoutOptions : Type := { TimeoutDuration : Duration }.

Definition DefaultTimeoutOptions : TimeoutOptions :=
  {| TimeoutDuration := 5 * Second |}.

Definition applyTimeoutDefaults (options : TimeoutOptions) : TimeoutOptions :=
  let defaults := DefaultTimeoutOptions in
  if TimeoutDuration options =? 0
  then {| TimeoutDuration := TimeoutDuration defaults |}
  else options.

(** The handler of an enabled Timeout.  The wrapped handler runs in a
    goroutine against the child context; the select returns its outcome
    unless the child context is done first, which is read off the world the
    handler finishes in.  The goroutine left behind when the deadline wins is
    not modelled apart from its effects on that world. *)
Definition timeoutHandler (opts : TimeoutOptions) (next : Handler W Ctx A) : Handler W Ctx A :=
  fun ctx w =>
    match ctxErr ctx w with
    | Some e => Ok ((None, Some e), w)
    | None =>
        let timeoutCtx := WithTimeout ctx (TimeoutDuration opts) w in
        let* (out, w') := next timeoutCtx w in
        match ctxErr timeoutCtx w' with
        | None => Ok (out, w')
        | Some e => Ok ((None, Some e), w')
        end
    end.

(** func Timeout(options TimeoutOptions) gosentry.Policy *)
Definition Timeout (options : TimeoutOptions) : Policy W Ctx A :=
  let opts := applyTimeoutDefaults options in
  if TimeoutDuration opts <? 0 then
    fun next => next
  else
    fun next => timeoutHandler opts next.

(* --------------------------------------------------------------------- *)
(** *** RateLimit *)
(* --------------------------------------------------------------------- *)

(** float64 and the operations RateLimit uses. *)
Definition float64 : Type := spec_float.

Definition f64add : float64 -> float64 -> float64 := SFadd 53 1024.
Definition f64sub : float64 -> float64 -> float64 := SFsub 53 1024.
Definition f64mul : float64 -> float64 -> float64 := SFmul 53 1024.
Definition f64div : float64 -> float64 -> float64 := SFdiv 53 1024.
(** [x < y] and [x <= y]; false when an operand is NaN *)
Definition f64ltb : float64 -> float64 -> bool := SFltb.
Definition f64leb : float64 -> float64 -> bool := SFleb.

(** [float64(z)] for an integer [z] *)
Definition f64ofInt (z : Z) : float64 := binary_normalize 53 1024 z 0 false.

(** func (d Duration) Seconds() float64 *)
Definition Seconds (d : Duration) : float64 :=
  let sec := Z.quot d Second in
  let nsec := Z.rem d Second in
  f64add (f64ofInt sec) (f64div (f64ofInt nsec) (f64ofInt 1000000000)).

Record RateLimitOptions : Type := {
  Rate : float64;
  Burst : Z;
  (** the field Now of RateLimitOptions *)
  RateLimitNow : option (W -> Time)
}.

Definition DefaultRateLimitOptions : RateLimitOptions :=
  {| Rate := f64ofInt 10; Burst := 10; RateLimitNow := None |}.

Definition applyRateLimitDefaults (options : RateLimitOptions)
  : RateLimitOptions :=
  let defaults := DefaultRateLimitOptions in
  let options :=
    if f64leb (Rate options) (f64ofInt 0)
    then {| Rate := Rate defaults;
            Burst := Burst options;
            RateLimitNow := RateLimitNow options |}
    else options in
  let options :=
    if Burst options <=? 0
    then {| Rate := Rate options;
            Burst := Burst defaults;
            RateLimitNow := RateLimitNow options |}
    else options in
  let options :=
    match RateLimitNow options with
    | None => {| Rate := Rate options;
                 Burst := Burst options;
                 RateLimitNow := Some timeNow |}
    | Some _ => options
    end in
  options.

(** The variables [tokens] and [lastAt] the closures of RateLimit share. *)
Record bucket : Type := {
  tokens : float64;
  lastAt : Time
}.

(** The state RateLimit starts from:
      tokens := float64(opts.Burst); lastAt := opts.Now() *)
Definition newBucket (options : RateLimitOptions) (w : W) : Result bucket :=
  let opts := applyRateLimitDefaults options in
  let* now := callNow (RateLimitNow opts) w in
  Ok {| tokens := f64ofInt (Burst opts); lastAt := now |}.

(** The clock a limiter built from [options] uses, as
    [applyRateLimitDefaults] resolves it. *)
Definition rateLimitClock (options : RateLimitOptions) : W -> Time :=
  match RateLimitNow options with
  | None => timeNow
  | Some f => f
  end.

(** The closure [allow], run under the mutex. *)
Definition allow (opts : RateLimitOptions) (b : bucket) (w : W)
  : Result (bool * bucket) :=
  let* now := callNow (RateLimitNow opts) w in
  let elapsed := Seconds (Sub now (lastAt b)) in
  let tokens := f64add (tokens b) (f64mul elapsed (Rate opts)) in
  let tokens :=
    if f64ltb (f64ofInt (Burst opts)) tokens
    then f64ofInt (Burst opts) else tokens in
  let lastAt := now in
  if f64leb (f64ofInt 1) tokens then
    Ok (true, {| tokens := f64sub tokens (f64ofInt 1); lastAt := lastAt |})
  else
    Ok (false, {| tokens := tokens; lastAt := lastAt |}).

(** func RateLimit(options RateLimitOptions) gosentry.Policy: the handler the
    policy returns; it runs on the bucket and the world. *)
Definition RateLimit (options : RateLimitOptions) (next : Handler W Ctx A)
  : Handler (bucket * W) Ctx A :=
  let opts := applyRateLimitDefaults options in
  fun ctx s =>
    let '(b, w) := s in
    match ctxErr ctx w with
    | Some e => Ok ((None, Some e), (b, w))
    | None =>
        let* (ok, b') := allow opts b w in
        if negb ok then
          Ok ((None, Some ErrRateLimitExceeded), (b', w))
        else
          let* (out, w') := next ctx w in
          Ok (out, (b', w'))
    end.

(* --------------------------------------------------------------------- *)
(** *** CircuitBreaker *)
(* --------------------------------------------------------------------- *)

(** type CircuitBreakerState string *)
Definition CircuitBreakerState : Type := string.
Definition CircuitClosed : CircuitBreakerState := "closed".
Definition CircuitOpen : CircuitBreakerState := "open".
Definition CircuitHalfOpen : CircuitBreakerState := "half-open".

Record CircuitBreakerOptions : Type := {
  FailureThreshold : Z;
  SuccessThreshold : Z;
  OpenTimeout : Duration;
  ShouldTrip : option (error -> bool);
  OnStateChange :
    option (CircuitBreakerState -> CircuitBreakerState -> W -> W);
  Now : option (W -> Time)
}.

Definition DefaultCircuitBreakerOptions : CircuitBreakerOptions := {|
  FailureThreshold := 5;
  SuccessThreshold := 1;
  OpenTimeout := 30 * Second;
  ShouldTrip := None;
  OnStateChange := None;
  Now := None
|}.

Definition applyCircuitBreakerDefaults (options : CircuitBreakerOptions)
  : CircuitBreakerOptions :=
  let defaults := DefaultCircuitBreakerOptions in
  {| FailureThreshold :=
       if FailureThreshold options =? 0
       then FailureThreshold defaults else FailureThreshold options;
     SuccessThreshold :=
       if SuccessThreshold options =? 0
       then SuccessThreshold defaults else SuccessThreshold options;
     OpenTimeout :=
       if OpenTimeout options =? 0
       then OpenTimeout defaults else OpenTimeout options;
     ShouldTrip :=
       match ShouldTrip options with
       | None => Some (fun err => negb (isNil err))
       | Some f => Some f
       end;
     OnStateChange := OnStateChange options;
     Now :=
       match Now options with
       | None => Some timeNow
       | Some f => Some f
       end |}.

(** type circuitBreaker struct, without the mutex and with the options kept
    apart. *)
Record circuitBreaker : Type := {
  state : CircuitBreakerState;
  openedAt : Time;
  failures : Z;
  halfSuccess : Z;
  halfInFlight : bool
}.

Definition newCircuitBreaker : circuitBreaker := {|
  state := CircuitClosed;
  openedAt := 0;
  failures := 0;
  halfSuccess := 0;
  halfInFlight := false
|}.

Definition setState (c : circuitBreaker) (s : CircuitBreakerState)
  : circuitBreaker :=
  {| state := s; openedAt := openedAt c; failures := failures c;
     halfSuccess := halfSuccess c; halfInFlight := halfInFlight c |}.

Definition setHalfInFlight (c : circuitBreaker) (b : bool) : circuitBreaker :=
  {| state := state c; openedAt := openedAt c; failures := failures c;
     halfSuccess := halfSuccess c; halfInFlight := b |}.

Definition setFailures (c : circuitBreaker) (n : Z) : circuitBreaker :=
  {| state := state c; openedAt := openedAt c; failures := n;
     halfSuccess := halfSuccess c; halfInFlight := halfInFlight c |}.

Definition setHalfSuccess (c : circuitBreaker) (n : Z) : circuitBreaker :=
  {| state := state c; openedAt := openedAt c; failures := failures c;
     halfSuccess := n; halfInFlight := halfInFlight c |}.

Definition setOpenedAt (c : circuitBreaker) (t : Time) : circuitBreaker :=
  {| state := state c; openedAt := t; failures := failures c;
     halfSuccess := halfSuccess c; halfInFlight := halfInFlight c |}.

(** func (c *circuitBreaker) transitionLocked(to CircuitBreakerState) *)
Definition transitionLocked (opts : CircuitBreakerOptions)
    (to : CircuitBreakerState) (c : circuitBreaker) (w : W)
  : circuitBreaker * W :=
  if String.eqb (state c) to then (c, w)
  else
    let from := state c in
    let c := setState c to in
    match OnStateChange opts with
    | Some observer => (c, observer from to w)
    | None => (c, w)
    end.

(** func (c *circuitBreaker) openLocked() *)
Definition openLocked (opts : CircuitBreakerOptions) (c : circuitBreaker)
    (w : W) : Result (circuitBreaker * W) :=
  let c := setFailures c 0 in
  let c := setHalfSuccess c 0 in
  let c := setHalfInFlight c false in
  let* now := callNow (Now opts) w in
  let c := setOpenedAt c now in
  Ok (transitionLocked opts CircuitOpen c w).

(** The case CircuitHalfOpen of beforeCall, also reached by the fallthrough
    of the case CircuitOpen. *)
Definition admitHalfOpen (c : circuitBreaker) (w : W)
  : error * circuitBreaker * W :=
  if halfInFlight c then (Some ErrCircuitHalfOpenBusy, c, w)
  else (None, setHalfInFlight c true, w).

(** func (c *circuitBreaker) beforeCall(ctx context.Context) error *)
Definition beforeCall (opts : CircuitBreakerOptions) (ctx : Ctx)
    (c : circuitBreaker) (w : W) : Result (error * circuitBreaker * W) :=
  match ctxErr ctx w with
  | Some e => Ok (Some e, c, w)
  | None =>
      let* now := callNow (Now opts) w in
      if String.eqb (state c) CircuitClosed then
        Ok (None, c, w)
      else if String.eqb (state c) CircuitOpen then
        if OpenTimeout opts <=? Sub now (openedAt c) then
          let '(c, w) := transitionLocked opts CircuitHalfOpen c w in
          Ok (admitHalfOpen c w)
        else
          Ok (Some ErrCircuitOpen, c, w)
      else if String.eqb (state c) CircuitHalfOpen then
        Ok (admitHalfOpen c w)
      else
        Ok (Some ErrCircuitOpen, c, w)
  end.

(** func (c *circuitBreaker) afterCall(err error) *)
Definition afterCall (opts : CircuitBreakerOptions) (err : error)
    (c : circuitBreaker) (w : W) : Result (circuitBreaker * W) :=
  let c :=
    if String.eqb (state c) CircuitHalfOpen
    then setHalfInFlight c false else c in
  match err with
  | None =>
      if String.eqb (state c) CircuitClosed then
        Ok (setFailures c 0, w)
      else if String.eqb (state c) CircuitHalfOpen then
        let c := setHalfSuccess c (wrap64 (halfSuccess c + 1)) in
        if SuccessThreshold opts <=? halfSuccess c then
          let c := setFailures c 0 in
          let c := setHalfSuccess c 0 in
          Ok (transitionLocked opts CircuitClosed c w)
        else Ok (c, w)
      else
        Ok (c, w)
  | Some _ =>
      match ShouldTrip opts with
      | None => Panic "nil func"
      | Some shouldTrip =>
          if negb (shouldTrip err) then Ok (c, w)
          else if String.eqb (state c) CircuitClosed then
            let c := setFailures c (wrap64 (failures c + 1)) in
            if FailureThreshold opts <=? failures c then openLocked opts c w
            else Ok (c, w)
          else if String.eqb (state c) CircuitHalfOpen then
            openLocked opts c w
          else
            Ok (c, w)
      end
  end.

(** The trip predicate and the clock a breaker built from [options] uses,
    as [applyCircuitBreakerDefaults] resolves them. *)
Definition tripPredicate (options : CircuitBreakerOptions) : error -> bool :=
  match ShouldTrip options with
  | None => fun err => negb (isNil err)
  | Some f => f
  end.

Definition breakerClock (options : CircuitBreakerOptions) : W -> Time :=
  match Now options with
  | None => timeNow
  | Some f => f
  end.

(** The world after the observer of [options], if any, has seen a
    transition. *)
Definition observed (options : CircuitBreakerOptions)
    (from to : CircuitBreakerState) (w : W) : W :=
  match OnStateChange options with
  | Some observer => observer from to w
  | None => w
  end.

(** The breaker as openLocked leaves it when it opens at [t]. *)
Definition opened (t : Time) : circuitBreaker :=
  {| state := CircuitOpen; openedAt := t; failures := 0;
     halfSuccess := 0; halfInFlight := false |}.

(** func CircuitBreaker(options CircuitBreakerOptions) gosentry.Policy: the
    handler the policy returns; it runs on the breaker, which starts as
    [newCircuitBreaker], and the world. *)
Definition CircuitBreaker (options : CircuitBreakerOptions)
    (next : Handler W Ctx A) : Handler (circuitBreaker * W) Ctx A :=
  let opts := applyCircuitBreakerDefaults options in
  fun ctx s =>
    let '(cb, w) := s in
    match ctxErr ctx w with
    | Some e => Ok ((None, Some e), (cb, w))
    | None =>
        let* (r, w1) := beforeCall opts ctx cb w in
        let '(err, cb1) := r in
        match err with
        | Some e => Ok ((None, Some e), (cb1, w1))
        | None =>
            let* (out, w2) := next ctx w1 in
            let '(result, err) := out in
            let* (cb2, w3) := afterCall opts err cb1 w2 in
            Ok ((result, err), (cb2, w3))
        end
    end.

End Policies.

(* --------------------------------------------------------------------- *)
(** *** The earlier Retry (doubling delay, no cancellation check) *)
(* --------------------------------------------------------------------- *)

Module SimpleRetry.
Section Policy.

Context {W Ctx A : Type} {RT : Runtime W Ctx}.

Record RetryOptions : Type := {
  MaxAttempts : Z;
  Delay : Duration
}.

(** The loop [for i := 0; i < maxAttempts; i++], entered at [i] with
    [remaining] iterations to go. *)
Fixpoint retryLoop (maxAttempts : Z) (next : Handler W Ctx A) (ctx : Ctx)
    (remaining : nat) (i : Z) (delay : Duration) (w : W)
  : Result (Outcome A * W) :=
  match remaining with
  | O => Ok ((None, Some (ErrorsNew "max attempts reached")), w)
  | S remaining' =>
      let* (out, w1) := next ctx w in
      let '(resp, err) := out in
      match err with
      | Some _ =>
          if i =? wrap64 (maxAttempts - 1) then Ok ((None, err), w1)
          else
            let w2 := Sleep delay w1 in
            retryLoop maxAttempts next ctx remaining'
              (wrap64 (i + 1)) (wrap64 (delay * 2)) w2
      | None => Ok ((resp, None), w1)
      end
  end.

(** func Retry(retryOptions RetryOptions) resilience.Policy *)
Definition Retry (retryOptions : RetryOptions) : Policy W Ctx A :=
  fun next ctx w =>
    let delay := Delay retryOptions in
    let maxAttempts := MaxAttempts retryOptions in
    retryLoop maxAttempts next ctx (Z.to_nat maxAttempts) 0 delay w.

End Policy.
End SimpleRetry.

(* ===================================================================== *)
(** ** Observing invocations *)
(* ===================================================================== *)

Section Observation.

Context {W Ctx A : Type} {RT : Runtime W Ctx}.

(** A handler that appends the error of each of its invocations to a log
    kept next to the world, as the handlers of the tests count theirs
    ([attempts++], [callCount++]). *)
Definition recorded (next : Handler W Ctx A) : Handler (W * list error) Ctx A :=
  fun ctx s =>
    let '(w, log) := s in
    let* (out, w') := next ctx w in
    Ok (out, (w', (log ++ [snd out])%list)).

(** The runtime seen through the log: the log is the handler's own. *)
#[export] Instance recordingRuntime : Runtime (W * list error) Ctx := {|
  ctxErr c s := ctxErr c (fst s);
  WithTimeout c d s := WithTimeout c d (fst s);
  timeNow s := timeNow (fst s);
  Sleep d s := (Sleep d (fst s), snd s);
  afterWait d c s := (afterWait d c (fst s), snd s);
  Int63 s := let '(v, w') := Int63 (fst s) in (v, (w', snd s))
|}.

(** [k] calls of a handler in sequence; the outcomes, oldest first. *)
Fixpoint callTimes {St : Type} (h : Handler St Ctx A) (ctx : Ctx) (k : nat)
    (s : St) : Result (list (Outcome A) * St) :=
  match k with
  | O => Ok ([], s)
  | S k' =>
      let* (out, s1) := h ctx s in
      let* (outs, s2) := callTimes h ctx k' s1 in
      Ok (out :: outs, s2)
  end.

End Observation.

(* ===================================================================== *)
(** ** A simulated world *)
(* ===================================================================== *)

(** A world with a settable clock, one cancellation signal, a fixed draw of
    the random source and a counter of the operation's invocations. *)
Record Sim : Type := {
  simClock : Time;
  simCancel : error;
  simDraw : Z;
  simCalls : nat
}.

Definition simAdvance (d : Duration) (w : Sim) : Sim :=
  {| simClock := simClock w + Z.max 0 d;
     simCancel := simCancel w;
     simDraw := simDraw w;
     simCalls := simCalls w |}.

Definition simTick (w : Sim) : Sim :=
  {| simClock := simClock w;
     simCancel := simCancel w;
     simDraw := simDraw w;
     simCalls := S (simCalls w) |}.

(** The contexts of the simulation: context.Background(), never done, and a
    context made by context.WithCancel, done once [simCancel] is set. *)
Inductive SimCtx : Type := Background | Cancellable.

#[export] Instance simRuntime : Runtime Sim SimCtx := {|
  ctxErr c w := match c with Background => None | Cancellable => simCancel w end;
  WithTimeout c _ _ := c;
  timeNow w := simClock w;
  Sleep d w := simAdvance d w;
  afterWait d _ w := simAdvance d w;
  Int63 w := (simDraw w, w)
|}.

Definition simStart : Sim :=
  {| simClock := 0; simCancel := None; simDraw := 0; simCalls := 0 |}.

Definition simCancelled : Sim :=
  {| simClock := 0; simCancel := Some Canceled; simDraw := 0; simCalls := 0 |}.

(** An operation that counts its invocations and fails each time, with an
    error that carries the number of the invocation. *)
Definition simFails : Handler Sim SimCtx nat :=
  fun _ w => Ok ((None, Some (OpError (S (simCalls w)))), simTick w).

(** An operation that counts its invocations and succeeds. *)
Definition simSucceeds : Handler Sim SimCtx nat :=
  fun _ w => Ok ((Some 123%nat, None), simTick w).

(** The options of TestCircuitBreaker_OpensAfterFailureThresholdAndRejects. *)
Definition simBreakerOptions : CircuitBreakerOptions (W := Sim) := {|
  FailureThreshold := 2;
  SuccessThreshold := 1;
  OpenTimeout := 10 * Second;
  ShouldTrip := None;
  OnStateChange := None;
  Now := None
|}.

(** A half-open breaker with no trial in flight. *)
Definition simHalfOpen : circuitBreaker := {|
  state := CircuitHalfOpen;
  openedAt := 0;
  failures := 0;
  halfSuccess := 0;
  halfInFlight := false
|}.

(** The options of TestRetry_MaxDelayClamping, with jitter on. *)
Definition clampingOptions : RetryOptions := {|
  MaxAttempts := 5;
  InitialDelay := 100 * Millisecond;
  MaxDelay := 150 * Millisecond;
  Backoff := BackoffExponential;
  Jitter := true
|}.

(** The default delays with exponential backoff, no jitter, and enough
    attempts for the product to leave the range of int64. *)
Definition longRetryOptions : RetryOptions := {|
  MaxAttempts := 66;
  InitialDelay := 100 * Millisecond;
  MaxDelay := 5 * Second;
  Backoff := BackoffExponential;
  Jitter := false
|}.

(** Jitter with an initial delay of one nanosecond. *)
Definition tinyDelayOptions : RetryOptions := {|
  MaxAttempts := 3;
  InitialDelay := 1 * Nanosecond;
  MaxDelay := 5 * Second;
  Backoff := BackoffFixed;
  Jitter := true
|}.

(** The options of TestRetry_AllAttemptsFail. *)
Definition fixedRetryOptions : RetryOptions := {|
  MaxAttempts := 3;
  InitialDelay := 10 * Millisecond;
  MaxDelay := 0;
  Backoff := BackoffFixed;
  Jitter := false
|}.

(** The delay the formulas of the specification give before attempt a+1,
    in unbounded integers. *)
Definition formulaDelay (attempt : Z) (opts : RetryOptions) : Z :=
  if String.eqb (Backoff opts) BackoffFixed then InitialDelay opts
  else if String.eqb (Backoff opts) BackoffLinear then
    InitialDelay opts * (attempt + 1)
  else if String.eqb (Backoff opts) BackoffExponential then
    InitialDelay opts * 2 ^ attempt
  else InitialDelay opts.

(** The limiter options of the tests: a rate, a burst, the default clock. *)
Definition simRateOptions (rate : float64) (burst : Z)
  : RateLimitOptions (W := Sim) :=
  {| Rate := rate; Burst := burst; RateLimitNow := None |}.

(** 625/1024 tokens per second: one token every 1.6384 s. *)
Definition slowRate : float64 := f64div (f64ofInt 625) (f64ofInt 1024).

(* ===================================================================== *)
(** ** Integers as float64 *)
(* ===================================================================== *)

(** [q] shifted left by [n] bits, [n >= 0]: the mantissa of a float whose
    exponent is lowered by [n]. *)
Definition shlP (q : positive) (n : Z) : positive :=
  match n with
  | Zpos p => Pos.iter xO q p
  | _ => q
  end.

(* ===================================================================== *)
(** ** Well-formed breakers, scripted operations *)
(* ===================================================================== *)

(** What the bookkeeping of a breaker keeps true of its fields, for given
    failure and success thresholds: a closed breaker counts failures below
    the threshold and has no half-open data; an open one has every counter
    at zero; a half-open one counts successes below the threshold. *)
Definition breakerInvariant (failureThreshold successThreshold : Z)
    (c : circuitBreaker) : Prop :=
  (state c = CircuitClosed /\
   0 <= failures c < failureThreshold /\
   halfSuccess c = 0 /\ halfInFlight c = false) \/
  (state c = CircuitOpen /\
   failures c = 0 /\ halfSuccess c = 0 /\ halfInFlight c = false) \/
  (state c = CircuitHalfOpen /\
   failures c = 0 /\ 0 <= halfSuccess c < successThreshold).

(** An operation that counts its invocations, fails on the first [j] of them
    and succeeds from then on, as the handlers of
    TestRetry_FirstFailsSecondSucceeds and TestRetry_ExponentialBackoff. *)
Definition simFailsFirst (j : nat) : Handler Sim SimCtx nat :=
  fun _ w =>
    if (simCalls w <? j)%nat
    then Ok ((None, Some (OpError (S (simCalls w)))), simTick w)
    else Ok ((Some 123%nat, None), simTick w).

(** An operation that fails with an error the breaker is told to ignore. *)
Definition simFailsBenign : Handler Sim SimCtx nat :=
  fun _ w => Ok ((None, Some (OpError 0)), simTick w).

(** The options of TestCircuitBreaker_ShouldTripFiltersFailures, with
    [OpError 0] as the ignored error. *)
Definition simFilterOptions : CircuitBreakerOptions (W := Sim) := {|
  FailureThreshold := 1;
  SuccessThreshold := 0;
  OpenTimeout := 10 * Second;
  ShouldTrip :=
    Some (fun err =>
            match err with
            | Some (OpError 0) => false
            | Some _ => true
            | None => false
            end);
  OnStateChange := None;
  Now := None
|}.

(** The simulated runtime with a context whose deadline is 50 ms after the
    start, as in TestRetry_ContextCancellationDuringWait: a wait on that
    context ends at the deadline if the timer would fire later. *)
Definition simDeadlineRuntime : Runtime Sim SimCtx := {|
  ctxErr c w :=
    match c with
    | Background => None
    | Cancellable =>
        if 50 * Millisecond <=? simClock w then Some DeadlineExceeded
        else None
    end;
  WithTimeout c _ _ := c;
  timeNow w := simClock w;
  Sleep d w := simAdvance d w;
  afterWait d c w :=
    match c with
    | Background => simAdvance d w
    | Cancellable =>
        simAdvance (Z.min d (Z.max 0 (50 * Millisecond - simClock w))) w
    end;
  Int63 w := (simDraw w, w)
|}.

(* ===================================================================== *)
(** ** Iterations of Retry, overlapping calls of a breaker *)
(* ===================================================================== *)

Section Schedules.

Context {W Ctx A : Type} {RT : Runtime W Ctx}.

(** The world in which the loop of Retry opens iteration [attempt + k], when
    it opened iteration [attempt] in [w] and each of the [k] iterations in
    between ran to its end: the context was not done, the operation failed,
    the delay was computed, and the wait returned with the context still
    not done.  [None] when one of them went another way. *)
Fixpoint failedAttempts (opts : RetryOptions) (next : Handler W Ctx A)
    (ctx : Ctx) (k : nat) (attempt : Z) (w : W) : option W :=
  match k with
  | O => Some w
  | S k' =>
      match ctxErr ctx w with
      | Some _ => None
      | None =>
          match next ctx w with
          | Ok ((_, Some _), w1) =>
              match computeDelay attempt opts w1 with
              | Ok (delay, w2) =>
                  let w3 := afterWait delay ctx w2 in
                  match ctxErr ctx w3 with
                  | Some _ => None
                  | None =>
                      failedAttempts opts next ctx k' (attempt + 1) w3
                  end
              | Panic _ => None
              end
          | _ => None
          end
      end
  end.

(** Calls through one breaker that overlap.  The handler of CircuitBreaker
    touches the breaker twice, each time under the mutex: in beforeCall, and
    in afterCall once next has returned.  An execution of overlapping calls
    is therefore a sequence of these two steps, a call being in flight
    between its [Enters] and its [Returns]; [Elapses] lets time pass. *)
Inductive BreakerStep : Type :=
| Enters
| Returns (err : error)
| Elapses (d : Duration).

(** The steps run in order on a breaker; the result lists what beforeCall
    answered to each call that entered. *)
Fixpoint runSteps (opts : CircuitBreakerOptions) (ctx : Ctx)
    (steps : list BreakerStep) (c : circuitBreaker) (w : W)
  : Result (list error * (circuitBreaker * W)) :=
  match steps with
  | [] => Ok ([], (c, w))
  | Enters :: rest =>
      let* (err, c1, w1) := beforeCall opts ctx c w in
      let* (errs, s) := runSteps opts ctx rest c1 w1 in
      Ok (err :: errs, s)
  | Returns err :: rest =>
      let* (c1, w1) := afterCall opts err c w in
      runSteps opts ctx rest c1 w1
  | Elapses d :: rest => runSteps opts ctx rest c (Sleep d w)
  end.

End Schedules.

(** A breaker that opens at the first failure and closes after two
    successful trials. *)
Definition stragglerOptions : CircuitBreakerOptions (W := Sim) := {|
  FailureThreshold := 1;
  SuccessThreshold := 2;
  OpenTimeout := 10 * Second;
  ShouldTrip := None;
  OnStateChange := None;
  Now := None
|}.

(** Three overlapping calls through a new breaker: the first is admitted
    and stays in flight; the second is admitted and fails; after 10 s the
    third is admitted and stays in flight. *)
Definition stragglerPrefix : list BreakerStep :=
  [Enters; Enters; Returns (Some (OpError 1)); Elapses (10 * Second); Enters].

(** A world whose clock reads 20 s. *)
Definition simLater : Sim := simAdvance (20 * Second) simStart.

(* ===================================================================== *)
(** * Properties *)
(* ===================================================================== *)

(* ===================================================================== *)
(** ** Execute *)
(* ===================================================================== *)

Section PipelineFacts.

Variables (St Ctx A : Type).

Lemma wrapDownFrom_app (front back : list (Policy St Ctx A))
    (h : Handler St Ctx A) :
  wrapDownFrom (front ++ back) (List.length front) h = nest front h.
Proof.
  revert back h.
  induction front as [| p front IH] using rev_ind; intros back h.
  - reflexivity.
  - rewrite length_app, Nat.add_comm. cbn [List.length Nat.add wrapDownFrom].
    rewrite <- app_assoc.
    rewrite nth_error_app2 by lia. rewrite Nat.sub_diag. cbn [nth_error app].
    rewrite IH. unfold nest. rewrite fold_right_app. reflexivity.
Qed.

Lemma Execute_nest (ctx : Ctx) (handler : Handler St Ctx A)
    (policies : list (Policy St Ctx A)) :
  Execute ctx handler policies = nest policies handler ctx.
Proof.
  unfold Execute.
  rewrite <- (app_nil_r policies) at 1.
  rewrite wrapDownFrom_app. reflexivity.
Qed.

(** C10.  With no policy, Execute returns what the base operation returns,
    world included.  With policies, the handler it calls, once, is
    [policy[0] (policy[1] (... (policy[n-1] handler)))]: the first policy is
    outermost, the last wraps the base operation. *)
Theorem Execute_composes_first_outermost :
  forall (ctx : Ctx) (handler : Handler St Ctx A),
    (forall s, Execute ctx handler [] s = handler ctx s) /\
    (forall (p : Policy St Ctx A) (rest : list (Policy St Ctx A)) s,
        Execute ctx handler (p :: rest) s = p (nest rest handler) ctx s) /\
    (forall (front : list (Policy St Ctx A)) (p : Policy St Ctx A) s,
        Execute ctx handler (front ++ [p]) s = nest front (p handler) ctx s) /\
    (forall (p0 p1 p2 : Policy St Ctx A) s,
        Execute ctx handler [p0; p1; p2] s = p0 (p1 (p2 handler)) ctx s).
Proof.
  intros ctx handler. repeat split.
  - intros p rest s. rewrite Execute_nest. reflexivity.
  - intros front p s. rewrite Execute_nest. unfold nest.
    rewrite fold_right_app. reflexivity.
Qed.

End PipelineFacts.

(* ===================================================================== *)
(** ** Timeout *)
(* ===================================================================== *)

Section TimeoutFacts.

Context {W Ctx A : Type} {RT : Runtime W Ctx}.

Lemma Timeout_disabled (options : TimeoutOptions) (next : Handler W Ctx A) :
  TimeoutDuration options < 0 -> Timeout options next = next.
Proof.
  destruct options as [d]. cbn [TimeoutDuration]. intros Hneg.
  unfold Timeout, applyTimeoutDefaults. cbn [TimeoutDuration].
  destruct (Z.eqb_spec d 0) as [-> | _]; [lia |].
  cbn [TimeoutDuration].
  destruct (Z.ltb_spec d 0); [reflexivity | lia].
Qed.

(** C9.  A negative duration makes Timeout the identity on handlers: the
    policy returns the handler it is given, with no cancellation check, no
    child context and no race.  A zero duration is replaced by the default of
    5 seconds before the policy is built. *)
Theorem Timeout_negative_is_identity :
  forall (options : TimeoutOptions) (next : Handler W Ctx A),
    (TimeoutDuration options < 0 -> Timeout options next = next) /\
    (TimeoutDuration options = 0 ->
       applyTimeoutDefaults options = {| TimeoutDuration := 5000000000 |} /\
       DefaultTimeoutOptions = {| TimeoutDuration := 5 * Second |} /\
       Timeout options next
       = timeoutHandler {| TimeoutDuration := 5 * Second |} next).
Proof.
  intros options next. split.
  - apply Timeout_disabled.
  - destruct options as [d]. cbn [TimeoutDuration]. intros ->.
    repeat split.
Qed.

End TimeoutFacts.

Lemma Timeout_negative_is_identity_witness :
  Timeout {| TimeoutDuration := -1 |} simSucceeds = simSucceeds /\
  Timeout {| TimeoutDuration := 0 |} simSucceeds
  = timeoutHandler {| TimeoutDuration := 5 * Second |} simSucceeds.
Proof.
  split.
  - apply (proj1 (Timeout_negative_is_identity
                    {| TimeoutDuration := -1 |} simSucceeds)).
    reflexivity.
  - apply (proj2 (Timeout_negative_is_identity
                    {| TimeoutDuration := 0 |} simSucceeds)).
    reflexivity.
Defined.

(* ===================================================================== *)
(** ** Circuit breaker *)
(* ===================================================================== *)

Lemma wrap64_small (z : Z) : minInt64 <= z <= maxInt64 -> wrap64 z = z.
Proof.
  unfold wrap64, minInt64, maxInt64. intros H.
  rewrite Z.mod_small by lia. lia.
Qed.

(** Decide the comparisons of state names that have become literal. *)
Ltac streq :=
  repeat match goal with
    | |- context [String.eqb ?a ?b] =>
        let v := eval vm_compute in (String.eqb a b) in
        match v with
        | true => change (String.eqb a b) with true
        | false => change (String.eqb a b) with false
        end
    end;
  cbn iota.

Section BreakerFacts.

Context {W Ctx A : Type} {RT : Runtime W Ctx}.

Variable options : CircuitBreakerOptions (W := W).

Lemma Now_resolved :
  Now (applyCircuitBreakerDefaults options) = Some (breakerClock options).
Proof. unfold breakerClock. cbn. destruct (Now options); reflexivity. Qed.

Lemma ShouldTrip_resolved :
  ShouldTrip (applyCircuitBreakerDefaults options)
  = Some (tripPredicate options).
Proof. unfold tripPredicate. cbn. destruct (ShouldTrip options); reflexivity. Qed.

Lemma OnStateChange_resolved :
  OnStateChange (applyCircuitBreakerDefaults options) = OnStateChange options.
Proof. reflexivity. Qed.

Lemma transitionLocked_other (from to : CircuitBreakerState)
    (c : circuitBreaker) (w : W) :
  state c = from -> String.eqb from to = false ->
  transitionLocked (applyCircuitBreakerDefaults options) to c w
  = (setState c to, observed options from to w).
Proof.
  intros Hs Hne. unfold transitionLocked, observed.
  rewrite Hs, Hne, OnStateChange_resolved.
  destruct (OnStateChange options); reflexivity.
Qed.

Lemma openLocked_from (from : CircuitBreakerState) (c : circuitBreaker)
    (w : W) :
  state c = from -> String.eqb from CircuitOpen = false ->
  openLocked (applyCircuitBreakerDefaults options) c w
  = Ok (opened (breakerClock options w),
       observed options from CircuitOpen w).
Proof.
  intros Hs Hne. unfold openLocked. rewrite Now_resolved. cbn [callNow bind].
  rewrite (transitionLocked_other from CircuitOpen) by (cbn; assumption).
  cbn. reflexivity.
Qed.

(** One call through a closed breaker whose operation fails with an error
    that trips. *)
Lemma closed_failure_step (next : Handler W Ctx A) (ctx : Ctx)
    (c : circuitBreaker) (w w' : W) (r : option A) (e : GoError) :
  ctxErr ctx w = None ->
  state c = CircuitClosed ->
  next ctx w = Ok ((r, Some e), w') ->
  tripPredicate options (Some e) = true ->
  CircuitBreaker options next ctx (c, w)
  = if FailureThreshold (applyCircuitBreakerDefaults options)
       <=? wrap64 (failures c + 1)
    then Ok ((r, Some e),
             (opened (breakerClock options w'),
              observed options CircuitClosed CircuitOpen w'))
    else Ok ((r, Some e), (setFailures c (wrap64 (failures c + 1)), w')).
Proof.
  intros Hctx Hs Hn Ht.
  unfold CircuitBreaker, beforeCall. rewrite Hctx, Now_resolved.
  cbn [callNow bind]. rewrite Hs. streq.
  cbn [bind]. rewrite Hn. cbn [bind].
  unfold afterCall. rewrite Hs. streq.
  rewrite ShouldTrip_resolved, Ht. cbn [negb]. rewrite Hs. streq.
  cbn [failures setFailures].
  destruct (FailureThreshold (applyCircuitBreakerDefaults options)
            <=? wrap64 (failures c + 1)).
  - rewrite (openLocked_from CircuitClosed) by (cbn; auto).
    reflexivity.
  - reflexivity.
Qed.

(** A call through an open breaker before the open timeout has elapsed. *)
Lemma open_rejects (next : Handler W Ctx A) (ctx : Ctx)
    (c : circuitBreaker) (w : W) :
  ctxErr ctx w = None ->
  state c = CircuitOpen ->
  Sub (breakerClock options w) (openedAt c)
  < OpenTimeout (applyCircuitBreakerDefaults options) ->
  CircuitBreaker options next ctx (c, w)
  = Ok ((None, Some ErrCircuitOpen), (c, w)).
Proof.
  intros Hctx Hs Hearly.
  unfold CircuitBreaker, beforeCall. rewrite Hctx, Now_resolved.
  cbn [callNow bind]. rewrite Hs. streq.
  destruct (Z.leb_spec (OpenTimeout (applyCircuitBreakerDefaults options))
              (Sub (breakerClock options w) (openedAt c))); [lia |].
  reflexivity.
Qed.

Section FailingOperation.

Variables (next : Handler W Ctx A) (ctx : Ctx).

Hypothesis threshold_int :
  1 <= FailureThreshold (applyCircuitBreakerDefaults options) <= maxInt64.
Hypothesis not_cancelled : forall w, ctxErr ctx w = None.
Hypothesis always_trips :
  forall w, exists r e w',
    next ctx w = Ok ((r, Some e), w') /\
    tripPredicate options (Some e) = true.

(** While the count stays below the threshold the breaker stays closed and
    counts. *)
Lemma closed_failures_count (k : nat) :
  forall (c : circuitBreaker) (w : W),
    state c = CircuitClosed ->
    0 <= failures c ->
    failures c + Z.of_nat k
    < FailureThreshold (applyCircuitBreakerDefaults options) ->
    exists outs c' w',
      callTimes (CircuitBreaker options next) ctx k (c, w)
      = Ok (outs, (c', w')) /\
      state c' = CircuitClosed /\
      failures c' = failures c + Z.of_nat k.
Proof.
  induction k as [| k IH]; intros c w Hs Hf Hlt.
  - exists [], c, w. cbn [callTimes]. repeat split; auto. lia.
  - destruct (always_trips w) as (r & e & w1 & Hn & Ht).
    cbn [callTimes].
    rewrite (closed_failure_step next ctx c w w1 r e (not_cancelled w) Hs Hn Ht).
    rewrite wrap64_small by (unfold minInt64, maxInt64 in *; lia).
    destruct (Z.leb_spec
                (FailureThreshold (applyCircuitBreakerDefaults options))
                (failures c + 1)); [lia |].
    cbn [bind].
    destruct (IH (setFailures c (failures c + 1)) w1) as
      (outs & c' & w' & Hrun & Hs' & Hf'); cbn [state failures setFailures];
      auto; try lia.
    rewrite Hrun. cbn [bind].
    exists ((r, Some e) :: outs), c', w'. repeat split; auto.
    rewrite Hf'. cbn [failures setFailures]. lia.
Qed.

(** The call that brings the count to the threshold opens the breaker: it
    follows [k] calls that left the breaker closed, and the opening time is
    the clock reading in the world its invocation of the operation returned
    in. *)
Lemma closed_trips_at_threshold (k : nat) :
  forall (c : circuitBreaker) (w : W),
    state c = CircuitClosed ->
    0 <= failures c ->
    failures c + Z.of_nat k + 1
    = FailureThreshold (applyCircuitBreakerDefaults options) ->
    exists outs c' wn r e wn',
      callTimes (CircuitBreaker options next) ctx k (c, w)
      = Ok (outs, (c', wn)) /\
      next ctx wn = Ok ((r, Some e), wn') /\
      tripPredicate options (Some e) = true /\
      callTimes (CircuitBreaker options next) ctx (S k) (c, w)
      = Ok ((outs ++ [(r, Some e)])%list,
            (opened (breakerClock options wn'),
             observed options CircuitClosed CircuitOpen wn')) /\
      List.length outs = k /\
      Forall (fun out => exists e, snd out = Some e /\
                                   tripPredicate options (Some e) = true) outs.
Proof.
  induction k as [| k IH]; intros c w Hs Hf Heq.
  - destruct (always_trips w) as (r & e & w1 & Hn & Ht).
    exists [], c, w, r, e, w1.
    split; [reflexivity |]. split; [exact Hn |]. split; [exact Ht |].
    split; [| split; [reflexivity | constructor]].
    cbn [callTimes].
    rewrite (closed_failure_step next ctx c w w1 r e (not_cancelled w) Hs Hn Ht).
    rewrite wrap64_small by (unfold minInt64, maxInt64 in *; lia).
    destruct (Z.leb_spec
                (FailureThreshold (applyCircuitBreakerDefaults options))
                (failures c + 1)); [| lia].
    reflexivity.
  - destruct (always_trips w) as (r & e & w1 & Hn & Ht).
    assert (Hstep : CircuitBreaker options next ctx (c, w)
                    = Ok ((r, Some e),
                          (setFailures c (failures c + 1), w1))).
    { rewrite (closed_failure_step next ctx c w w1 r e (not_cancelled w)
                 Hs Hn Ht).
      rewrite wrap64_small by (unfold minInt64, maxInt64 in *; lia).
      destruct (Z.leb_spec
                  (FailureThreshold (applyCircuitBreakerDefaults options))
                  (failures c + 1)); [lia | reflexivity]. }
    destruct (IH (setFailures c (failures c + 1)) w1)
      as (outs & c' & wn & r' & e' & wn' & Hrun & Hn' & Ht' & Hlast & Hlen
          & Hall);
      cbn [state failures setFailures]; auto; try lia.
    exists ((r, Some e) :: outs), c', wn, r', e', wn'.
    split.
    { cbn [callTimes]. rewrite Hstep. cbn [bind]. rewrite Hrun. reflexivity. }
    split; [exact Hn' |]. split; [exact Ht' |].
    split.
    { cbn [callTimes] in Hlast |- *. rewrite Hstep. cbn [bind].
      rewrite Hlast. reflexivity. }
    split; [cbn [List.length]; lia |].
    constructor; [| exact Hall]. exists e. split; [reflexivity | exact Ht].
Qed.

End FailingOperation.

(** C1.  Take a closed breaker with no failure counted, as a new breaker
    is.  Let every invocation of the operation fail with an error that
    satisfies the trip predicate, under a context that is not cancelled, and
    let the failure threshold be n >= 1.  After fewer than n calls the
    breaker is still closed and has counted them.  After exactly n calls it
    is open, with the failure count, the half-open success count and the
    in-flight flag reset; all n calls returned the operation's error.  The
    opening time the breaker has recorded is the reading of its clock in the
    world the operation's n-th invocation returned in, and the observer has
    been told (closed, open) there.  From then on every call made in a world
    whose clock is less than openTimeout past that reading returns
    (nil, ErrCircuitOpen) and leaves breaker and world as they are, whatever
    the wrapped handler: the operation is not invoked. *)
Theorem breaker_opens_at_threshold_then_rejects :
  forall (next : Handler W Ctx A) (ctx : Ctx) (c0 : circuitBreaker) (w0 : W),
    state c0 = CircuitClosed ->
    failures c0 = 0 ->
    1 <= FailureThreshold (applyCircuitBreakerDefaults options) <= maxInt64 ->
    (forall w, ctxErr ctx w = None) ->
    (forall w, exists r e w',
        next ctx w = Ok ((r, Some e), w') /\
        tripPredicate options (Some e) = true) ->
    let n := Z.to_nat (FailureThreshold (applyCircuitBreakerDefaults options)) in
    state newCircuitBreaker = CircuitClosed /\
    failures newCircuitBreaker = 0 /\
    (forall k, (k < n)%nat ->
       exists outs c w,
         callTimes (CircuitBreaker options next) ctx k (c0, w0)
         = Ok (outs, (c, w)) /\
         state c = CircuitClosed /\ failures c = Z.of_nat k) /\
    (exists outs c w,
       callTimes (CircuitBreaker options next) ctx n (c0, w0)
       = Ok (outs, (c, w)) /\
       List.length outs = n /\
       Forall (fun out => exists e, snd out = Some e /\
                                    tripPredicate options (Some e) = true)
              outs /\
       state c = CircuitOpen /\
       failures c = 0 /\ halfSuccess c = 0 /\ halfInFlight c = false /\
       (exists outs' c' wn r e wn',
          callTimes (CircuitBreaker options next) ctx (Nat.pred n) (c0, w0)
          = Ok (outs', (c', wn)) /\
          next ctx wn = Ok ((r, Some e), wn') /\
          outs = (outs' ++ [(r, Some e)])%list /\
          openedAt c = breakerClock options wn' /\
          w = observed options CircuitClosed CircuitOpen wn') /\
       (forall (next' : Handler W Ctx A) (ctx' : Ctx) (w' : W),
         ctxErr ctx' w' = None ->
         Sub (breakerClock options w') (openedAt c)
         < OpenTimeout (applyCircuitBreakerDefaults options) ->
         CircuitBreaker options next' ctx' (c, w')
         = Ok ((None, Some ErrCircuitOpen), (c, w')))).
Proof.
  intros next ctx c0 w0 Hs0 Hf0 Hn Hctx Hfail n. subst n.
  split; [reflexivity |]. split; [reflexivity |]. split.
  - intros k Hk.
    destruct (closed_failures_count next ctx Hn Hctx Hfail k c0 w0)
      as (outs & c & w & Hrun & Hs & Hf); [assumption | lia | lia |].
    exists outs, c, w. repeat split; auto. lia.
  - destruct (closed_trips_at_threshold next ctx Hn Hctx Hfail
                (Nat.pred (Z.to_nat (FailureThreshold
                                       (applyCircuitBreakerDefaults options))))
                c0 w0)
      as (outs & c' & wn & r & e & wn' & Hrun & Hnext & Ht & Hlast & Hlen
          & Hall); [assumption | lia | lia |].
    replace (S (Nat.pred (Z.to_nat (FailureThreshold
                                      (applyCircuitBreakerDefaults options)))))
      with (Z.to_nat (FailureThreshold (applyCircuitBreakerDefaults options)))
      in Hlast by lia.
    exists (outs ++ [(r, Some e)])%list,
      (opened (breakerClock options wn')),
      (observed options CircuitClosed CircuitOpen wn').
    split; [exact Hlast |].
    split; [rewrite length_app; cbn [List.length]; lia |].
    split.
    { apply Forall_app. split; [exact Hall |].
      constructor; [| constructor]. exists e. split; [reflexivity | exact Ht]. }
    split; [reflexivity |]. split; [reflexivity |]. split; [reflexivity |].
    split; [reflexivity |].
    split.
    { exists outs, c', wn, r, e, wn'. repeat split; assumption. }
    intros next' ctx' w' Hc Hearly.
    apply open_rejects; auto.
Qed.

(** The breaker after a half-open trial has succeeded: closed with all
    counters reset once the success count reaches the threshold, else still
    half-open, with the success counted and no trial in flight. *)
Lemma afterCall_halfOpen_success (c : circuitBreaker) (w : W) :
  state c = CircuitHalfOpen ->
  minInt64 <= halfSuccess c < maxInt64 ->
  afterCall (applyCircuitBreakerDefaults options) None c w
  = if SuccessThreshold (applyCircuitBreakerDefaults options)
       <=? halfSuccess c + 1
    then Ok ({| state := CircuitClosed; openedAt := openedAt c;
                failures := 0; halfSuccess := 0; halfInFlight := false |},
             observed options CircuitHalfOpen CircuitClosed w)
    else Ok ({| state := CircuitHalfOpen; openedAt := openedAt c;
                failures := failures c; halfSuccess := halfSuccess c + 1;
                halfInFlight := false |}, w).
Proof.
  intros Hs Hint. unfold afterCall. rewrite Hs. streq.
  cbn [state setHalfInFlight]. rewrite Hs. streq.
  cbn [halfSuccess setHalfSuccess setHalfInFlight].
  rewrite wrap64_small by (unfold minInt64, maxInt64 in *; lia).
  destruct (SuccessThreshold (applyCircuitBreakerDefaults options)
            <=? halfSuccess c + 1).
  - rewrite (transitionLocked_other CircuitHalfOpen CircuitClosed)
      by (cbn; auto).
    cbn. reflexivity.
  - unfold setHalfSuccess, setHalfInFlight. cbn. rewrite Hs. reflexivity.
Qed.

Lemma afterCall_halfOpen_trip (c : circuitBreaker) (w : W) (e : GoError) :
  state c = CircuitHalfOpen ->
  tripPredicate options (Some e) = true ->
  afterCall (applyCircuitBreakerDefaults options) (Some e) c w
  = Ok (opened (breakerClock options w),
        observed options CircuitHalfOpen CircuitOpen w).
Proof.
  intros Hs Ht. unfold afterCall. rewrite Hs. streq.
  rewrite ShouldTrip_resolved, Ht. cbn [negb state setHalfInFlight].
  rewrite Hs. streq.
  rewrite (openLocked_from CircuitHalfOpen) by (cbn; auto).
  reflexivity.
Qed.

Lemma beforeCall_halfOpen (ctx : Ctx) (c : circuitBreaker) (w : W) :
  ctxErr ctx w = None ->
  state c = CircuitHalfOpen ->
  beforeCall (applyCircuitBreakerDefaults options) ctx c w
  = Ok (admitHalfOpen c w).
Proof.
  intros Hctx Hs. unfold beforeCall. rewrite Hctx, Now_resolved.
  cbn [callNow bind]. rewrite Hs. streq. reflexivity.
Qed.

(** The half-open state as far as the in-flight flag tells it, under a
    context that is not cancelled:
    - with the flag clear, the admission check admits the call and sets the
      flag, leaving the counters as they are;
    - with the flag set, a call returns (nil, ErrCircuitHalfOpenBusy) and
      leaves breaker and world as they are, whatever the wrapped handler:
      the operation is not invoked and no counter changes;
    - recording a trial that failed with an error satisfying the trip
      predicate opens the breaker at once, whatever the success threshold,
      with the counters reset and the opening time read from the clock;
    - recording a trial that succeeded adds one to the half-open success
      count; the count is kept for the next trial, and when it reaches the
      success threshold the counters are reset and the breaker is closed;
    - so a call admitted as the trial whose operation succeeds leaves the
      breaker closed and reset when the count reaches the threshold, and
      half-open with the success counted otherwise. *)
Theorem halfOpen_trial_discipline :
  forall (ctx : Ctx) (c : circuitBreaker) (w : W),
    state c = CircuitHalfOpen ->
    ctxErr ctx w = None ->
    (halfInFlight c = false ->
       beforeCall (applyCircuitBreakerDefaults options) ctx c w
       = Ok (None, setHalfInFlight c true, w)) /\
    (halfInFlight c = true ->
       forall next : Handler W Ctx A,
         CircuitBreaker options next ctx (c, w)
         = Ok ((None, Some ErrCircuitHalfOpenBusy), (c, w))) /\
    (forall e : GoError,
       tripPredicate options (Some e) = true ->
       afterCall (applyCircuitBreakerDefaults options) (Some e) c w
       = Ok ({| state := CircuitOpen; openedAt := breakerClock options w;
                failures := 0; halfSuccess := 0; halfInFlight := false |},
             observed options CircuitHalfOpen CircuitOpen w)) /\
    (minInt64 <= halfSuccess c < maxInt64 ->
       afterCall (applyCircuitBreakerDefaults options) None c w
       = if SuccessThreshold (applyCircuitBreakerDefaults options)
            <=? halfSuccess c + 1
         then Ok ({| state := CircuitClosed; openedAt := openedAt c;
                     failures := 0; halfSuccess := 0;
                     halfInFlight := false |},
                  observed options CircuitHalfOpen CircuitClosed w)
         else Ok ({| state := CircuitHalfOpen; openedAt := openedAt c;
                     failures := failures c;
                     halfSuccess := halfSuccess c + 1;
                     halfInFlight := false |}, w)) /\
    (halfInFlight c = false ->
     minInt64 <= halfSuccess c < maxInt64 ->
     forall (next : Handler W Ctx A) (r : option A) (w' : W),
       next ctx w = Ok ((r, None), w') ->
       CircuitBreaker options next ctx (c, w)
       = if SuccessThreshold (applyCircuitBreakerDefaults options)
            <=? halfSuccess c + 1
         then Ok ((r, None),
                  ({| state := CircuitClosed; openedAt := openedAt c;
                      failures := 0; halfSuccess := 0;
                      halfInFlight := false |},
                   observed options CircuitHalfOpen CircuitClosed w'))
         else Ok ((r, None),
                  ({| state := CircuitHalfOpen; openedAt := openedAt c;
                      failures := failures c;
                      halfSuccess := halfSuccess c + 1;
                      halfInFlight := false |}, w'))) /\
    (halfInFlight c = false ->
     forall (next : Handler W Ctx A) (r : option A) (e : GoError) (w' : W),
       next ctx w = Ok ((r, Some e), w') ->
       tripPredicate options (Some e) = true ->
       CircuitBreaker options next ctx (c, w)
       = Ok ((r, Some e),
             ({| state := CircuitOpen; openedAt := breakerClock options w';
                 failures := 0; halfSuccess := 0; halfInFlight := false |},
              observed options CircuitHalfOpen CircuitOpen w'))).
Proof.
  intros ctx c w Hs Hctx. repeat split.
  - intros Hfl. rewrite beforeCall_halfOpen by assumption.
    unfold admitHalfOpen. rewrite Hfl. reflexivity.
  - intros Hfl next. unfold CircuitBreaker. rewrite Hctx.
    rewrite beforeCall_halfOpen by assumption.
    unfold admitHalfOpen. rewrite Hfl. reflexivity.
  - intros e Ht. apply afterCall_halfOpen_trip; assumption.
  - intros Hint. apply afterCall_halfOpen_success; assumption.
  - intros Hfl Hint next r w' Hn. unfold CircuitBreaker. rewrite Hctx.
    rewrite beforeCall_halfOpen by assumption.
    unfold admitHalfOpen. rewrite Hfl. cbn [bind]. rewrite Hn. cbn [bind].
    rewrite afterCall_halfOpen_success by (cbn; assumption).
    cbn [halfSuccess openedAt failures setHalfInFlight].
    destruct (SuccessThreshold (applyCircuitBreakerDefaults options)
              <=? halfSuccess c + 1); reflexivity.
  - intros Hfl next r e w' Hn Ht. unfold CircuitBreaker. rewrite Hctx.
    rewrite beforeCall_halfOpen by assumption.
    unfold admitHalfOpen. rewrite Hfl. cbn [bind]. rewrite Hn. cbn [bind].
    rewrite afterCall_halfOpen_trip by (cbn; assumption).
    reflexivity.
Qed.

End BreakerFacts.

Lemma breaker_opens_at_threshold_then_rejects_witness :
  exists outs c w,
    callTimes (CircuitBreaker simBreakerOptions simFails) Background 2
      (newCircuitBreaker, simLater) = Ok (outs, (c, w)) /\
    state c = CircuitOpen /\
    openedAt c = 20 * Second /\
    CircuitBreaker simBreakerOptions simSucceeds Background (c, w)
    = Ok ((None, Some ErrCircuitOpen), (c, w)).
Proof.
  destruct (breaker_opens_at_threshold_then_rejects
              simBreakerOptions simFails Background newCircuitBreaker
              simLater) as (_ & _ & _ & H).
  - reflexivity.
  - reflexivity.
  - cbn. unfold maxInt64. lia.
  - intros w. reflexivity.
  - intros w. exists None, (OpError (S (simCalls w))), (simTick w).
    split; reflexivity.
  - destruct H as (outs & c & w & Hrun & _ & _ & Hs & _ & _ & _ & Hat & Hrej).
    exists outs, c, w. split; [exact Hrun |]. split; [exact Hs |].
    cbn in Hrun. injection Hrun as _ <- <-.
    split; [reflexivity |].
    apply Hrej; [reflexivity |].
    cbn. unfold Sub, minInt64, maxInt64. lia.
Defined.

Lemma halfOpen_trial_discipline_witness :
  CircuitBreaker simBreakerOptions simSucceeds Background
    (setHalfInFlight simHalfOpen true, simStart)
  = Ok ((None, Some ErrCircuitHalfOpenBusy),
        (setHalfInFlight simHalfOpen true, simStart)) /\
  CircuitBreaker simBreakerOptions simSucceeds Background
    (simHalfOpen, simStart)
  = Ok ((Some 123%nat, None), (newCircuitBreaker, simTick simStart)) /\
  CircuitBreaker simBreakerOptions simFails Background
    (simHalfOpen, simStart)
  = Ok ((None, Some (OpError 1)), (opened 0, simTick simStart)).
Proof.
  split; [| split].
  - destruct (halfOpen_trial_discipline (A := nat) simBreakerOptions
                Background (setHalfInFlight simHalfOpen true) simStart)
      as (_ & Hbusy & _); [reflexivity | reflexivity |].
    apply Hbusy. reflexivity.
  - destruct (halfOpen_trial_discipline (A := nat) simBreakerOptions
                Background simHalfOpen simStart)
      as (_ & _ & _ & _ & Hok & _); [reflexivity | reflexivity |].
    refine (Hok eq_refl _ simSucceeds (Some 123%nat) (simTick simStart) eq_refl).
    cbn. unfold minInt64, maxInt64. lia.
  - destruct (halfOpen_trial_discipline (A := nat) simBreakerOptions
                Background simHalfOpen simStart)
      as (_ & _ & _ & _ & _ & Hfail); [reflexivity | reflexivity |].
    apply (Hfail eq_refl simFails None (OpError 1) (simTick simStart));
      reflexivity.
Defined.

(** C2.  The in-flight flag does not know whose call completes.  afterCall
    clears it for every call that returns while the breaker is half-open,
    the trial or not.  Take a breaker that opens at the first failure, with
    success threshold 2 and open timeout 10 s, and four calls: call 1 is
    admitted while the breaker is closed and stays in flight; call 2 is
    admitted, fails, and opens the breaker; 10 s later call 3 is admitted as
    the half-open trial and stays in flight.
    - A fourth call made now returns (nil, ErrCircuitHalfOpenBusy).
    - If call 1 returns first, with success, the flag is cleared and the
      half-open success count becomes 1 although no trial has completed.
      A fourth call, made while the trial of call 3 is still in flight, is
      then admitted as a second trial: its operation is invoked, and its
      success closes the breaker. *)
Theorem straggler_completion_admits_second_trial :
  let opts := applyCircuitBreakerDefaults stragglerOptions in
  let w := simAdvance (10 * Second) simStart in
  let trial :=
    {| state := CircuitHalfOpen; openedAt := 0; failures := 0;
       halfSuccess := 0; halfInFlight := true |} in
  let straggled :=
    {| state := CircuitHalfOpen; openedAt := 0; failures := 0;
       halfSuccess := 1; halfInFlight := false |} in
  runSteps opts Background stragglerPrefix newCircuitBreaker simStart
  = Ok ([None; None; None], (trial, w)) /\
  CircuitBreaker stragglerOptions simSucceeds Background (trial, w)
  = Ok ((None, Some ErrCircuitHalfOpenBusy), (trial, w)) /\
  runSteps opts Background (stragglerPrefix ++ [Returns None])%list
    newCircuitBreaker simStart
  = Ok ([None; None; None], (straggled, w)) /\
  runSteps opts Background (stragglerPrefix ++ [Returns None; Enters])%list
    newCircuitBreaker simStart
  = Ok ([None; None; None; None], (setHalfInFlight straggled true, w)) /\
  CircuitBreaker stragglerOptions simSucceeds Background (straggled, w)
  = Ok ((Some 123%nat, None),
        ({| state := CircuitClosed; openedAt := 0; failures := 0;
            halfSuccess := 0; halfInFlight := false |}, simTick w)).
Proof.
  cbv zeta. repeat split; vm_compute; reflexivity.
Qed.

(* ===================================================================== *)
(** ** Retry: the delay *)
(* ===================================================================== *)

Section DelayFacts.

Context {W Ctx : Type} {RT : Runtime W Ctx}.

Lemma capDelay_min (opts : RetryOptions) (d : Duration) :
  capDelay opts d = Z.min (MaxDelay opts) d.
Proof.
  unfold capDelay. destruct (Z.ltb_spec (MaxDelay opts) d); lia.
Qed.

Lemma capDelay_le (opts : RetryOptions) (d : Duration) :
  capDelay opts d <= MaxDelay opts.
Proof. rewrite capDelay_min. lia. Qed.

Lemma computeDelay_no_jitter (attempt : Z) (opts : RetryOptions) (w : W) :
  Jitter opts = false ->
  computeDelay attempt opts w
  = Ok (Z.min (MaxDelay opts) (backoffDelay attempt opts), w).
Proof.
  intros Hj. unfold computeDelay, addJitter. rewrite Hj. cbn [bind].
  rewrite capDelay_min. reflexivity.
Qed.

Lemma computeDelay_jitter (attempt : Z) (opts : RetryOptions) (w : W) :
  Jitter opts = true ->
  computeDelay attempt opts w
  = if Z.quot (backoffDelay attempt opts) 2 <=? 0
    then Panic "invalid argument to Int63n"
    else Ok (Z.min (MaxDelay opts)
               (wrap64 (backoffDelay attempt opts
                        + fst (Int63 w)
                          mod Z.quot (backoffDelay attempt opts) 2)),
             snd (Int63 w)).
Proof.
  intros Hj. unfold computeDelay, addJitter, Int63n. rewrite Hj.
  destruct (Z.quot (backoffDelay attempt opts) 2 <=? 0); [reflexivity |].
  destruct (Int63 w) as [v w']. cbn [bind fst snd].
  rewrite capDelay_min. reflexivity.
Qed.

Lemma shl64_one (a : Z) : 0 <= a < 63 -> shl64 1 (toUint64 a) = 2 ^ a.
Proof.
  intros Ha. unfold shl64, toUint64.
  rewrite Z.mod_small by lia.
  destruct (Z.leb_spec 64 a); [lia |].
  rewrite Z.shiftl_1_l.
  apply wrap64_small. unfold minInt64, maxInt64.
  assert (2 ^ a <= 2 ^ 62) by (apply Z.pow_le_mono_r; lia).
  assert (0 < 2 ^ a) by (apply Z.pow_pos_nonneg; lia).
  change (2 ^ 63) with (2 * 2 ^ 62). lia.
Qed.

(** X3.  Without jitter, for an attempt below 63 and as long as the product
    of the formula stays an int64, the delay is the formula of the strategy
    (the initial delay; times attempt + 1; times 2^attempt; the initial
    delay for an unknown strategy) capped at MaxDelay. *)
Lemma computeDelay_formula (attempt : Z) (opts : RetryOptions) (w : W) :
  Jitter opts = false ->
  0 <= attempt < 63 ->
  inInt64 (formulaDelay attempt opts) ->
  computeDelay attempt opts w
  = Ok (Z.min (MaxDelay opts) (formulaDelay attempt opts), w).
Proof.
  intros Hj Ha Hin. rewrite computeDelay_no_jitter by assumption.
  do 3 f_equal. revert Hin. unfold backoffDelay, formulaDelay.
  destruct (String.eqb (Backoff opts) BackoffFixed); [reflexivity |].
  destruct (String.eqb (Backoff opts) BackoffLinear).
  - intros Hin. rewrite (wrap64_small (attempt + 1))
      by (unfold minInt64, maxInt64; lia).
    apply wrap64_small. exact Hin.
  - destruct (String.eqb (Backoff opts) BackoffExponential);
      [| reflexivity].
    intros Hin. rewrite shl64_one by assumption.
    apply wrap64_small. exact Hin.
Qed.

(** C4.  At the default delays (100 ms, capped at 5 s), exponential backoff,
    jitter off, the computed delay follows the formula while the product is
    an int64: 100 ms, 200 ms, ..., then 5 s from attempt 6 on.  At attempt
    37 the product 100 ms * 2^37 has left the range of int64: the delay is
    negative, not 5 s; at attempt 64 the shift gives 0 and the delay is 0. *)
Theorem computeDelay_exponential_wraps :
  forall w : W,
    applyDefaults longRetryOptions = longRetryOptions /\
    computeDelay 0 longRetryOptions w = Ok (100 * Millisecond, w) /\
    computeDelay 1 longRetryOptions w = Ok (200 * Millisecond, w) /\
    computeDelay 6 longRetryOptions w = Ok (5 * Second, w) /\
    Z.min (MaxDelay longRetryOptions) (formulaDelay 37 longRetryOptions)
    = 5 * Second /\
    computeDelay 37 longRetryOptions w = Ok (-4702848726509551616, w) /\
    Z.min (MaxDelay longRetryOptions) (formulaDelay 64 longRetryOptions)
    = 5 * Second /\
    computeDelay 64 longRetryOptions w = Ok (0, w).
Proof.
  intros w. repeat split.
Qed.

(** C5, amended.  computeDelay takes the delay of the backoff switch as it
    is, with no cap; when jitter is on it adds a draw below half of that
    delay (and panics when that half is not positive); it caps the sum once,
    at MaxDelay.  So every delay it returns is at most MaxDelay. *)
Theorem computeDelay_caps_once_after_jitter :
  forall (attempt : Z) (opts : RetryOptions) (w : W),
    let base := backoffDelay attempt opts in
    (Jitter opts = false ->
       computeDelay attempt opts w = Ok (Z.min (MaxDelay opts) base, w)) /\
    (Jitter opts = true -> 0 < Z.quot base 2 ->
       exists jitter,
         0 <= jitter < Z.quot base 2 /\
         computeDelay attempt opts w
         = Ok (Z.min (MaxDelay opts) (wrap64 (base + jitter)),
               snd (Int63 w))) /\
    (forall d w', computeDelay attempt opts w = Ok (d, w') ->
                  d <= MaxDelay opts).
Proof.
  intros attempt opts w base. subst base. repeat split.
  - apply computeDelay_no_jitter.
  - intros Hj Hpos.
    exists (fst (Int63 w) mod Z.quot (backoffDelay attempt opts) 2).
    split; [apply Z.mod_pos_bound; lia |].
    rewrite computeDelay_jitter by assumption.
    destruct (Z.leb_spec (Z.quot (backoffDelay attempt opts) 2) 0); [lia |].
    reflexivity.
  - intros d w'. unfold computeDelay.
    destruct (addJitter opts (backoffDelay attempt opts) w) as [[d0 w0] |];
      cbn [bind]; [| discriminate].
    intros [= <- <-]. apply capDelay_le.
Qed.

(** C6.  With jitter on, computeDelay panics whenever half of the backoff
    delay, truncated, is not positive.  applyDefaults keeps an initial delay
    of 1 ns, and with it and fixed backoff every delay computation panics;
    it keeps a negative initial delay, and with it the first delay
    computation (attempt 0) panics under every backoff strategy. *)
Theorem computeDelay_panics_without_positive_half :
  (forall (attempt : Z) (opts : RetryOptions) (w : W),
      Jitter opts = true ->
      Z.quot (backoffDelay attempt opts) 2 <= 0 ->
      computeDelay attempt opts w = Panic "invalid argument to Int63n") /\
  (applyDefaults tinyDelayOptions = tinyDelayOptions /\
   forall (attempt : Z) (w : W),
     computeDelay attempt tinyDelayOptions w
     = Panic "invalid argument to Int63n") /\
  (forall (options : RetryOptions) (w : W),
      Jitter options = true ->
      minInt64 <= InitialDelay options < 0 ->
      InitialDelay (applyDefaults options) = InitialDelay options /\
      computeDelay 0 (applyDefaults options) w
      = Panic "invalid argument to Int63n").
Proof.
  assert (Hgen : forall (attempt : Z) (opts : RetryOptions) (w : W),
             Jitter opts = true ->
             Z.quot (backoffDelay attempt opts) 2 <= 0 ->
             computeDelay attempt opts w
             = Panic "invalid argument to Int63n").
  { intros attempt opts w Hj Hhalf. rewrite computeDelay_jitter by assumption.
    destruct (Z.leb_spec (Z.quot (backoffDelay attempt opts) 2) 0);
      [reflexivity | lia]. }
  split; [exact Hgen |]. split.
  - split; [reflexivity |]. intros attempt w. apply Hgen; [reflexivity |].
    cbn. lia.
  - intros options w Hj Hneg.
    assert (Hkeep : InitialDelay (applyDefaults options)
                    = InitialDelay options).
    { unfold applyDefaults.
      repeat match goal with
             | |- context [if ?b then _ else _] => destruct b eqn:?
             end; cbn [InitialDelay]; try reflexivity;
        rewrite Z.eqb_eq in *; cbn [InitialDelay] in *; lia. }
    split; [exact Hkeep |].
    apply Hgen.
    + unfold applyDefaults.
      repeat match goal with
             | |- context [if ?b then _ else _] => destruct b
             end; exact Hj.
    + assert (Hbase : backoffDelay 0 (applyDefaults options)
                      = InitialDelay options).
      { unfold backoffDelay. rewrite Hkeep.
        change (shl64 1 (toUint64 0)) with 1.
        change (wrap64 (0 + 1)) with 1.
        rewrite Z.mul_1_r.
        rewrite wrap64_small by (unfold minInt64, maxInt64 in *; lia).
        repeat match goal with
               | |- context [if ?b then _ else _] => destruct b
               end; reflexivity. }
      rewrite Hbase.
      pose proof (Z.quot_opp_l (- InitialDelay options) 2) as Hopp.
      assert (0 <= Z.quot (- InitialDelay options) 2)
        by (apply Z.quot_pos; lia).
      rewrite Z.opp_involutive in Hopp. lia.
Qed.

End DelayFacts.

(** C5 as stated fails: with the options of TestRetry_MaxDelayClamping and
    jitter on, the delay that enters the jitter step at attempt 1 is 200 ms,
    above the MaxDelay of 150 ms; with a draw of 99999999 the jitter step
    returns 299999999 ns, and only then the cap brings it to 150 ms. *)
Lemma jitter_sees_uncapped_delay :
  applyDefaults clampingOptions = clampingOptions /\
  backoffDelay 1 clampingOptions = 200 * Millisecond /\
  ~ (0 <= backoffDelay 1 clampingOptions <= MaxDelay clampingOptions) /\
  let w := {| simClock := 0; simCancel := None;
              simDraw := 99999999; simCalls := 0 |} in
  addJitter clampingOptions (backoffDelay 1 clampingOptions) w
  = Ok (299999999, w) /\
  computeDelay 1 clampingOptions w = Ok (150 * Millisecond, w).
Proof.
  repeat split. cbn. unfold Millisecond. lia.
Qed.

Lemma computeDelay_caps_once_after_jitter_witness :
  let w := {| simClock := 0; simCancel := None;
              simDraw := 99999999; simCalls := 0 |} in
  computeDelay 1 fixedRetryOptions w = Ok (0, w) /\
  (exists jitter,
      0 <= jitter < 100 * Millisecond /\
      computeDelay 1 clampingOptions w
      = Ok (Z.min (150 * Millisecond) (wrap64 (200 * Millisecond + jitter)),
            w)) /\
  150 * Millisecond <= MaxDelay clampingOptions.
Proof.
  intros w.
  destruct (computeDelay_caps_once_after_jitter 1 fixedRetryOptions w)
    as (Hoff & _ & _).
  destruct (computeDelay_caps_once_after_jitter 1 clampingOptions w)
    as (_ & Hon & Hcap).
  split; [exact (Hoff eq_refl) |]. split.
  - apply Hon; [reflexivity |]. cbn. lia.
  - apply (Hcap (150 * Millisecond) w). reflexivity.
Defined.

Lemma computeDelay_panics_without_positive_half_witness :
  computeDelay 0 tinyDelayOptions simStart
  = Panic "invalid argument to Int63n" /\
  computeDelay 0
    (applyDefaults {| MaxAttempts := 3; InitialDelay := -1;
                      MaxDelay := 0; Backoff := BackoffLinear;
                      Jitter := true |}) simStart
  = Panic "invalid argument to Int63n".
Proof.
  destruct (computeDelay_panics_without_positive_half
              (W := Sim) (Ctx := SimCtx)) as (Hgen & _ & Hneg).
  split.
  - apply Hgen; [reflexivity |]. cbn. lia.
  - apply Hneg; [reflexivity |]. cbn. unfold minInt64. lia.
Defined.

(* ===================================================================== *)
(** ** Retry: the loop *)
(* ===================================================================== *)

Section RetryFacts.

Context {W Ctx A : Type} {RT : Runtime W Ctx}.

(** With a context that is done at entry and at least one attempt allowed,
    Retry returns the context's error at the first check of its loop. *)
Lemma Retry_cancelled_at_entry (options : RetryOptions)
    (next : Handler W Ctx A) (ctx : Ctx) (w : W) (e : GoError) :
  ctxErr ctx w = Some e ->
  1 <= MaxAttempts (applyDefaults options) ->
  Retry options next ctx w = Ok ((None, Some e), w).
Proof.
  intros Hc Hn. unfold Retry.
  destruct (Z.to_nat (MaxAttempts (applyDefaults options))) eqn:Hk; [lia |].
  cbn [retryLoop]. rewrite Hc. reflexivity.
Qed.

(** The delay computation does not touch the log of a recorded handler. *)
Lemma computeDelay_recording (attempt : Z) (opts : RetryOptions) (w : W)
    (log : list error) :
  computeDelay attempt opts (w, log)
  = match computeDelay attempt opts w with
    | Ok (d, w') => Ok (d, (w', log))
    | Panic m => Panic m
    end.
Proof.
  unfold computeDelay, addJitter, Int63n. cbn [Int63 recordingRuntime fst snd].
  destruct (Jitter opts); [| reflexivity].
  destruct (Z.quot (backoffDelay attempt opts) 2 <=? 0); [reflexivity |].
  destruct (Int63 w) as [v w']. reflexivity.
Qed.

Section AlwaysFailing.

Variables (opts : RetryOptions) (next : Handler W Ctx A) (ctx : Ctx).

Hypothesis attempts_int : MaxAttempts opts <= maxInt64.
Hypothesis not_cancelled : forall w, ctxErr ctx w = None.
Hypothesis always_fails :
  forall w, exists r e w', next ctx w = Ok ((r, Some e), w').
Hypothesis delays_computed :
  forall attempt w, 0 <= attempt < MaxAttempts opts - 1 ->
    exists d w', computeDelay attempt opts w = Ok (d, w').

(** From any attempt on, an operation that keeps failing is invoked once per
    remaining attempt, and the error of its last invocation is returned. *)
Lemma retryLoop_exhausts (remaining : nat) :
  forall (attempt : Z) (lastErr : error) (w : W) (log : list error),
    (1 <= remaining)%nat ->
    0 <= attempt ->
    attempt + Z.of_nat remaining = MaxAttempts opts ->
    exists e w' l,
      retryLoop opts (recorded next) ctx remaining attempt lastErr (w, log)
      = Ok ((None, Some e), (w', (log ++ l)%list)) /\
      List.length l = remaining /\
      last l None = Some e.
Proof.
  induction remaining as [| remaining IH];
    intros attempt lastErr w log Hrem Hatt Hsum; [lia |].
  cbn [retryLoop]. cbn [ctxErr recordingRuntime fst]. rewrite not_cancelled.
  destruct (always_fails w) as (r & e & w1 & Hn).
  unfold recorded at 1. rewrite Hn. cbn [bind snd].
  rewrite (wrap64_small (MaxAttempts opts - 1))
    by (unfold minInt64, maxInt64 in *; lia).
  destruct (Z.eqb_spec attempt (MaxAttempts opts - 1)) as [Hlast | Hmore].
  - exists e, w1, [Some e]. repeat split; auto.
    cbn [List.length]. lia.
  - rewrite computeDelay_recording.
    destruct (delays_computed attempt w1) as (d & w2 & Hd); [lia |].
    rewrite Hd. cbn [bind].
    cbn [afterWait ctxErr recordingRuntime fst snd]. rewrite not_cancelled.
    rewrite (wrap64_small (attempt + 1))
      by (unfold minInt64, maxInt64 in *; lia).
    destruct (IH (attempt + 1) (Some e) (afterWait d ctx w2)
                (log ++ [Some e])%list)
      as (e' & w' & l & Hrun & Hlen & Hlast); try lia.
    rewrite <- app_assoc in Hrun.
    exists e', w', (Some e :: l). split; [exact Hrun |]. split.
    + cbn [List.length]. lia.
    + destruct l as [| x l]; [cbn in Hlen; lia |]. exact Hlast.
Qed.

End AlwaysFailing.

(** Retry invokes an operation that always fails exactly MaxAttempts times
    and returns the error of the last invocation -- for the configurations
    whose delay computations do not panic, among them all with jitter off. *)
Lemma Retry_exhausts_attempts (options : RetryOptions)
    (next : Handler W Ctx A) (ctx : Ctx) (w : W) :
  1 <= MaxAttempts (applyDefaults options) <= maxInt64 ->
  (forall w, ctxErr ctx w = None) ->
  (forall w, exists r e w', next ctx w = Ok ((r, Some e), w')) ->
  (forall attempt w,
      0 <= attempt < MaxAttempts (applyDefaults options) - 1 ->
      exists d w', computeDelay attempt (applyDefaults options) w
                   = Ok (d, w')) ->
  exists e w' log,
    Retry options (recorded next) ctx (w, []) = Ok ((None, Some e), (w', log)) /\
    Z.of_nat (List.length log) = MaxAttempts (applyDefaults options) /\
    last log None = Some e.
Proof.
  intros Hn Hctx Hfail Hdelay. unfold Retry.
  destruct (retryLoop_exhausts (applyDefaults options) next ctx
              (proj2 Hn) Hctx Hfail Hdelay
              (Z.to_nat (MaxAttempts (applyDefaults options)))
              0 None w [])
    as (e & w' & l & Hrun & Hlen & Hlast); try lia.
  exists e, w', l. rewrite Hrun. cbn [app]. repeat split; auto. lia.
Qed.

(** X4.  With jitter off, a context that is never cancelled and an
    operation that fails at every invocation, Retry invokes the operation
    exactly MaxAttempts times (as resolved, at least 1) and returns nil with
    the error of the last invocation. *)
Lemma Retry_exhausts_attempts_no_jitter (options : RetryOptions)
    (next : Handler W Ctx A) (ctx : Ctx) (w : W) :
  Jitter options = false ->
  1 <= MaxAttempts (applyDefaults options) <= maxInt64 ->
  (forall w, ctxErr ctx w = None) ->
  (forall w, exists r e w', next ctx w = Ok ((r, Some e), w')) ->
  exists e w' log,
    Retry options (recorded next) ctx (w, []) = Ok ((None, Some e), (w', log)) /\
    Z.of_nat (List.length log) = MaxAttempts (applyDefaults options) /\
    last log None = Some e.
Proof.
  intros Hj Hn Hctx Hfail. apply Retry_exhausts_attempts; auto.
  intros attempt w0 _.
  exists (Z.min (MaxDelay (applyDefaults options))
            (backoffDelay attempt (applyDefaults options))), w0.
  apply computeDelay_no_jitter.
  unfold applyDefaults.
  repeat match goal with
         | |- context [if ?b then _ else _] => destruct b
         end; exact Hj.
Qed.

(** The earlier Retry: an operation that always fails is invoked once per
    remaining attempt, and the error of the last invocation is returned. *)
Lemma SimpleRetry_loop_exhausts (maxAttempts : Z) (next : Handler W Ctx A)
    (ctx : Ctx) (remaining : nat) :
  maxAttempts <= maxInt64 ->
  (forall w, exists r e w', next ctx w = Ok ((r, Some e), w')) ->
  forall (i : Z) (delay : Duration) (w : W) (log : list error),
    (1 <= remaining)%nat ->
    0 <= i ->
    i + Z.of_nat remaining = maxAttempts ->
    exists e w' l,
      SimpleRetry.retryLoop maxAttempts (recorded next) ctx remaining i delay
        (w, log)
      = Ok ((None, Some e), (w', (log ++ l)%list)) /\
      List.length l = remaining /\
      last l None = Some e.
Proof.
  intros Hmax Hfail.
  induction remaining as [| remaining IH];
    intros i delay w log Hrem Hi Hsum; [lia |].
  cbn [SimpleRetry.retryLoop].
  destruct (Hfail w) as (r & e & w1 & Hn).
  unfold recorded at 1. rewrite Hn. cbn [bind snd].
  rewrite (wrap64_small (maxAttempts - 1))
    by (unfold minInt64, maxInt64 in *; lia).
  destruct (Z.eqb_spec i (maxAttempts - 1)) as [Hlast | Hmore].
  - exists e, w1, [Some e]. repeat split; auto.
    cbn [List.length]. lia.
  - rewrite (wrap64_small (i + 1))
      by (unfold minInt64, maxInt64 in *; lia).
    cbn [Sleep recordingRuntime fst snd].
    destruct (IH (i + 1) (wrap64 (delay * 2)) (Sleep delay w1)
                (log ++ [Some e])%list)
      as (e' & w' & l & Hrun & Hlen & Hlast); try lia.
    rewrite <- app_assoc in Hrun.
    exists e', w', (Some e :: l). split; [exact Hrun |]. split.
    + cbn [List.length]. lia.
    + destruct l as [| x l]; [cbn in Hlen; lia |]. exact Hlast.
Qed.

(** X5.  The earlier Retry, with MaxAttempts >= 1 and an operation that
    fails at every invocation, invokes the operation exactly MaxAttempts
    times and returns nil with the error of the last invocation, whatever
    the context. *)
Lemma SimpleRetry_exhausts_attempts (options : SimpleRetry.RetryOptions)
    (next : Handler W Ctx A) (ctx : Ctx) (w : W) :
  1 <= SimpleRetry.MaxAttempts options <= maxInt64 ->
  (forall w, exists r e w', next ctx w = Ok ((r, Some e), w')) ->
  exists e w' log,
    SimpleRetry.Retry options (recorded next) ctx (w, [])
    = Ok ((None, Some e), (w', log)) /\
    Z.of_nat (List.length log) = SimpleRetry.MaxAttempts options /\
    last log None = Some e.
Proof.
  intros Hn Hfail. unfold SimpleRetry.Retry.
  destruct (SimpleRetry_loop_exhausts (SimpleRetry.MaxAttempts options)
              next ctx (Z.to_nat (SimpleRetry.MaxAttempts options))
              (proj2 Hn) Hfail 0 (SimpleRetry.Delay options) w [])
    as (e & w' & l & Hrun & Hlen & Hlast); try lia.
  exists e, w', l. split; [exact Hrun |]. split; [lia | exact Hlast].
Qed.

End RetryFacts.

(** C3.  With jitter on, an initial delay of 1 ns and three attempts, the
    first invocation of an operation that always fails is followed by the
    delay computation, which panics: Retry neither reaches the second
    invocation nor returns an error.  With the options of
    TestRetry_AllAttemptsFail (jitter off) the same operation is invoked
    three times and the third error is returned. *)
Theorem Retry_panics_before_second_attempt :
  applyDefaults tinyDelayOptions = tinyDelayOptions /\
  simFails Background simStart
  = Ok ((None, Some (OpError 1)), simTick simStart) /\
  computeDelay 0 tinyDelayOptions (simTick simStart)
  = Panic "invalid argument to Int63n" /\
  Retry tinyDelayOptions simFails Background simStart
  = Panic "invalid argument to Int63n" /\
  Retry fixedRetryOptions simFails Background simStart
  = Ok ((None, Some (OpError 3)),
        {| simClock := 20 * Millisecond; simCancel := None;
           simDraw := 0; simCalls := 3 |}).
Proof.
  repeat split.
Qed.

(* ===================================================================== *)
(** ** Cancellation at entry *)
(* ===================================================================== *)

(** C7 as stated fails for Timeout: built with a negative duration it is the
    identity, so under a context that is already cancelled the operation is
    invoked and its outcome returned, not the cancellation error. *)
Lemma disabled_Timeout_ignores_cancellation :
  ctxErr Cancellable simCancelled = Some Canceled /\
  Timeout {| TimeoutDuration := -1 |} simSucceeds Cancellable simCancelled
  = Ok ((Some 123%nat, None), simTick simCancelled) /\
  simCalls (simTick simCancelled) = S (simCalls simCancelled).
Proof.
  repeat split.
Qed.

(** Two more calls under a context that is already cancelled.  With a
    negative MaxAttempts, which applyDefaults keeps, the loop of Retry is
    not entered and (nil, nil) is returned.  The earlier Retry never looks at
    the context and invokes the operation. *)
Lemma Retry_without_cancellation_check :
  Retry {| MaxAttempts := -1; InitialDelay := 0; MaxDelay := 0;
           Backoff := ""; Jitter := false |}
    simSucceeds Cancellable simCancelled
  = Ok ((None, None), simCancelled) /\
  SimpleRetry.Retry
    {| SimpleRetry.MaxAttempts := 3; SimpleRetry.Delay := 1 * Second |}
    simSucceeds Cancellable simCancelled
  = Ok ((Some 123%nat, None), simTick simCancelled).
Proof.
  repeat split.
Qed.

Section CancellationFacts.

Context {W Ctx A : Type} {RT : Runtime W Ctx}.

(** C7, amended.  Let the context be done at entry, with error e.  Retry
    with at least one attempt allowed, Timeout with a duration that is not
    negative, RateLimit and CircuitBreaker return (nil, e) and leave the
    world, the bucket and the breaker as they are, whatever the wrapped
    handler: the operation is not invoked and no sentinel error is produced.
    Timeout with a negative duration is the wrapped handler itself and makes
    no check. *)
Theorem cancelled_context_short_circuits :
  forall (next : Handler W Ctx A) (ctx : Ctx) (w : W) (e : GoError),
    ctxErr ctx w = Some e ->
    (forall options : RetryOptions,
        1 <= MaxAttempts (applyDefaults options) ->
        Retry options next ctx w = Ok ((None, Some e), w)) /\
    (forall options : TimeoutOptions,
        0 <= TimeoutDuration options ->
        Timeout options next ctx w = Ok ((None, Some e), w)) /\
    (forall options : TimeoutOptions,
        TimeoutDuration options < 0 ->
        Timeout options next ctx w = next ctx w) /\
    (forall (options : RateLimitOptions) (b : bucket),
        RateLimit options next ctx (b, w) = Ok ((None, Some e), (b, w))) /\
    (forall (options : CircuitBreakerOptions) (c : circuitBreaker),
        CircuitBreaker options next ctx (c, w)
        = Ok ((None, Some e), (c, w))).
Proof.
  intros next ctx w e Hc. repeat split.
  - intros options Hn. apply Retry_cancelled_at_entry; assumption.
  - intros [d] Hd. cbn [TimeoutDuration] in Hd.
    unfold Timeout, applyTimeoutDefaults. cbn [TimeoutDuration].
    destruct (Z.eqb_spec d 0) as [-> | Hnz].
    + change (TimeoutDuration
                {| TimeoutDuration := TimeoutDuration DefaultTimeoutOptions |}
              <? 0) with false.
      cbn iota. unfold timeoutHandler. rewrite Hc. reflexivity.
    + cbn [TimeoutDuration].
      destruct (Z.ltb_spec d 0); [lia |].
      unfold timeoutHandler. rewrite Hc. reflexivity.
  - intros options Hd.
    rewrite (Timeout_disabled options next Hd). reflexivity.
  - intros options b. unfold RateLimit. rewrite Hc. reflexivity.
  - intros options c. unfold CircuitBreaker. rewrite Hc. reflexivity.
Qed.

End CancellationFacts.

Lemma cancelled_context_short_circuits_witness :
  Retry fixedRetryOptions simSucceeds Cancellable simCancelled
  = Ok ((None, Some Canceled), simCancelled) /\
  Timeout {| TimeoutDuration := 50 * Millisecond |} simSucceeds
    Cancellable simCancelled
  = Ok ((None, Some Canceled), simCancelled) /\
  Timeout {| TimeoutDuration := -1 |} simSucceeds Cancellable simCancelled
  = simSucceeds Cancellable simCancelled /\
  CircuitBreaker simBreakerOptions simSucceeds Cancellable
    (newCircuitBreaker, simCancelled)
  = Ok ((None, Some Canceled), (newCircuitBreaker, simCancelled)).
Proof.
  destruct (cancelled_context_short_circuits (RT := simRuntime)
              simSucceeds Cancellable simCancelled Canceled eq_refl)
    as (Hretry & Htimeout & Hoff & _ & Hbreaker).
  split; [| split; [| split]].
  - apply Hretry. cbn. lia.
  - apply Htimeout. cbn. lia.
  - apply Hoff. cbn. lia.
  - apply Hbreaker.
Defined.

(* ===================================================================== *)
(** ** Rate limiter: integers in float64 *)
(* ===================================================================== *)

Lemma digits2_pos_iter_xO (q n : positive) :
  digits2_pos (Pos.iter xO q n) = (digits2_pos q + n)%positive.
Proof.
  induction n as [| n IH] using Pos.peano_ind.
  - cbn. lia.
  - rewrite Pos.iter_succ. cbn [digits2_pos]. rewrite IH. lia.
Qed.

Lemma digits_shlP (q : positive) (n : Z) :
  0 <= n -> Zpos (digits2_pos (shlP q n)) = Zpos (digits2_pos q) + n.
Proof.
  intros Hn. destruct n as [| n | n]; cbn [shlP]; [lia | | lia].
  rewrite digits2_pos_iter_xO. lia.
Qed.

Lemma shlP_add (q : positive) (a b : Z) :
  0 <= a -> 0 <= b -> shlP (shlP q a) b = shlP q (a + b).
Proof.
  intros Ha Hb.
  destruct a as [| a | a]; [| | lia]; destruct b as [| b | b]; try lia;
    cbn [shlP Z.add]; try reflexivity.
  rewrite Pos.add_comm. rewrite Pos.iter_add. reflexivity.
Qed.

Lemma Zpos_shlP (q : positive) (n : Z) :
  0 <= n -> Zpos (shlP q n) = Zpos q * 2 ^ n.
Proof.
  intros Hn. destruct n as [| n | n]; cbn [shlP]; [lia | | lia].
  clear Hn. induction n as [| n IH] using Pos.peano_ind.
  - cbn. lia.
  - rewrite Pos.iter_succ. rewrite Pos2Z.inj_xO, IH.
    rewrite Pos2Z.inj_succ, Z.pow_succ_r by lia. lia.
Qed.

Lemma iter_pos_iter {X : Type} (f : X -> X) (n : positive) :
  forall x, iter_pos f n x = Pos.iter f x n.
Proof.
  induction n as [n IH | n IH |]; intros x; cbn [iter_pos Pos.iter].
  - rewrite !IH. rewrite <- !Pos.iter_swap. reflexivity.
  - rewrite !IH. reflexivity.
  - reflexivity.
Qed.

Lemma shr_1_xO (m : positive) :
  shr_1 {| shr_m := Zpos (xO m); shr_r := false; shr_s := false |}
  = {| shr_m := Zpos m; shr_r := false; shr_s := false |}.
Proof. reflexivity. Qed.

Lemma shr_exact (q : positive) (e n : Z) :
  0 <= n ->
  shr {| shr_m := Zpos (shlP q n); shr_r := false; shr_s := false |} e n
  = ({| shr_m := Zpos q; shr_r := false; shr_s := false |}, e + n).
Proof.
  intros Hn. destruct n as [| n | n]; [| | lia].
  - cbn. f_equal. lia.
  - cbn [shr shlP]. f_equal. rewrite iter_pos_iter. clear Hn.
    induction n as [| n IH] using Pos.peano_ind.
    + reflexivity.
    + rewrite Pos.iter_succ_r. rewrite Pos.iter_succ. rewrite shr_1_xO.
      exact IH.
Qed.

Lemma binary_round_aux_exact (s : bool) (m : positive) (e : Z) :
  Zpos (digits2_pos m) = 53 -> -1074 <= e <= 971 ->
  binary_round_aux 53 1024 s (Zpos m) e loc_Exact = S754_finite s m e.
Proof.
  intros Hd He. unfold binary_round_aux, shr_fexp.
  cbn [Zdigits2 shr_record_of_loc]. rewrite Hd.
  assert (Hz : fexp 53 1024 (53 + e) - e = 0).
  { unfold fexp, emin. lia. }
  rewrite Hz. cbn [shr shr_m loc_of_shr_record round_nearest_even Zdigits2].
  rewrite Hd, Hz. cbn [shr shr_m].
  destruct (Z.leb_spec e (1024 - 53)); [reflexivity | lia].
Qed.

(** The float of the integer [q * 2^a * 2^(-a)], for [q] of at most 53 bits. *)
Lemma binary_round_shl (q : positive) (a : Z) :
  let d := Zpos (digits2_pos q) in
  d <= 53 -> 0 <= a <= 1000 ->
  binary_round 53 1024 false (shlP q a) (- a)
  = S754_finite false (shlP q (53 - d)) (d - 53).
Proof.
  intros d Hd Ha. unfold binary_round.
  rewrite digits_shlP by lia. fold d.
  assert (Hf : fexp 53 1024 (d + a + - a) = d - 53).
  { unfold fexp, emin. pose proof (Pos2Z.is_pos (digits2_pos q)). lia. }
  rewrite Hf. unfold shl_align.
  destruct (d - 53 - - a) as [| t | t] eqn:Ht.
  - assert (a = 53 - d) by lia. subst a.
    rewrite binary_round_aux_exact.
    + f_equal. lia.
    + rewrite digits_shlP by lia. fold d. lia.
    + pose proof (Pos2Z.is_pos (digits2_pos q)). lia.
  - (* the mantissa is too long: shift right, exactly *)
    unfold binary_round_aux, shr_fexp. cbn [Zdigits2 shr_record_of_loc].
    rewrite digits_shlP by lia. fold d. rewrite Hf.
    replace (d - 53 - - a) with (Zpos t) by lia.
    replace (shlP q a) with (shlP (shlP q (53 - d)) (Zpos t))
      by (rewrite shlP_add by lia; f_equal; lia).
    rewrite shr_exact by lia.
    cbn [shr_m loc_of_shr_record round_nearest_even Zdigits2].
    rewrite digits_shlP by lia. fold d.
    assert (Hz : fexp 53 1024 (d + (53 - d) + (- a + Zpos t))
                 - (- a + Zpos t) = 0).
    { unfold fexp, emin. pose proof (Pos2Z.is_pos (digits2_pos q)). lia. }
    rewrite Hz. cbn [shr shr_m].
    destruct (Z.leb_spec (- a + Zpos t) (1024 - 53)); [| lia].
    f_equal. lia.
  - (* the mantissa is short: shift left *)
    change (Pos.iter xO (shlP q a) t) with (shlP (shlP q a) (Zpos t)).
    rewrite shlP_add by lia.
    replace (a + Zpos t) with (53 - d) by lia.
    rewrite binary_round_aux_exact.
    + reflexivity.
    + rewrite digits_shlP by lia. fold d. lia.
    + pose proof (Pos2Z.is_pos (digits2_pos q)). lia.
Qed.

Lemma digits_bounds (q : positive) :
  2 ^ (Zpos (digits2_pos q) - 1) <= Zpos q < 2 ^ Zpos (digits2_pos q).
Proof.
  induction q as [q IH | q IH |]; cbn [digits2_pos].
  - rewrite Pos2Z.inj_succ, Pos2Z.inj_xI.
    replace (Z.succ (Zpos (digits2_pos q)) - 1)
      with (Z.succ (Zpos (digits2_pos q) - 1)) by lia.
    rewrite !Z.pow_succ_r by lia. lia.
  - rewrite Pos2Z.inj_succ. change (Zpos q~0) with (2 * Zpos q).
    replace (Z.succ (Zpos (digits2_pos q)) - 1)
      with (Z.succ (Zpos (digits2_pos q) - 1)) by lia.
    rewrite !Z.pow_succ_r by lia. lia.
  - cbn. lia.
Qed.

Lemma digits_le_53 (q : positive) :
  Zpos q < 2 ^ 53 -> Zpos (digits2_pos q) <= 53.
Proof.
  intros Hq. pose proof (digits_bounds q) as [Hlo _].
  destruct (Z.le_gt_cases (Zpos (digits2_pos q)) 53) as [| Hgt]; [assumption |].
  assert (2 ^ 53 <= 2 ^ (Zpos (digits2_pos q) - 1))
    by (apply Z.pow_le_mono_r; lia).
  lia.
Qed.

Lemma digits_mono (p q : positive) :
  (p <= q)%positive -> Zpos (digits2_pos p) <= Zpos (digits2_pos q).
Proof.
  intros Hpq. pose proof (digits_bounds p) as [Hlo _].
  pose proof (digits_bounds q) as [_ Hhi].
  destruct (Z.le_gt_cases (Zpos (digits2_pos p)) (Zpos (digits2_pos q)))
    as [| Hgt]; [assumption |].
  assert (2 ^ Zpos (digits2_pos q) <= 2 ^ (Zpos (digits2_pos p) - 1))
    by (apply Z.pow_le_mono_r; lia).
  lia.
Qed.

(** float64(q) for a positive integer below 2^53: the integer itself,
    normalised to 53 bits. *)
Lemma f64ofInt_pos (q : positive) :
  Zpos q < 2 ^ 53 ->
  f64ofInt (Zpos q)
  = S754_finite false (shlP q (53 - Zpos (digits2_pos q)))
      (Zpos (digits2_pos q) - 53).
Proof.
  intros Hq. unfold f64ofInt. cbn [binary_normalize].
  apply (binary_round_shl q 0); [apply digits_le_53; assumption | lia].
Qed.

Lemma fst_shl_align (m : positive) (e e' : Z) :
  e' <= e -> fst (shl_align m e e') = shlP m (e - e').
Proof.
  intros He. unfold shl_align.
  destruct (e' - e) as [| d | d] eqn:Hd; cbn [fst].
  - replace (e - e') with 0 by lia. reflexivity.
  - lia.
  - replace (e - e') with (Zpos d) by lia. reflexivity.
Qed.

Lemma f64sub_one_small (k : Z) :
  1 <= k < 2 ^ 53 ->
  f64sub (f64ofInt k) (f64ofInt 1) = f64ofInt (k - 1).
Proof.
  intros Hk. destruct k as [| q | q]; try lia.
  change (f64ofInt 1) with (S754_finite false (shlP 1 52) (-52)).
  rewrite (f64ofInt_pos q) by lia.
  pose proof (digits_le_53 q ltac:(lia)) as Hd.
  pose proof (Pos2Z.is_pos (digits2_pos q)) as Hd0.
  unfold f64sub, SFsub.
  assert (Hmin : Z.min (Zpos (digits2_pos q) - 53) (-52) = -52) by lia.
  rewrite Hmin. rewrite !fst_shl_align by lia.
  rewrite shlP_add by lia.
  replace (53 - Zpos (digits2_pos q) + (Zpos (digits2_pos q) - 53 - -52))
    with 52 by lia.
  replace (-52 - -52) with 0 by lia. cbn [cond_Zopp].
  change (shlP (shlP 1 52) 0) with (shlP 1 52).
  destruct (Pos.eq_dec q 1) as [-> | Hne].
  - reflexivity.
  - assert (Hq' : Zpos q - 1 = Zpos (Pos.pred q)) by lia.
    rewrite Hq'. rewrite (f64ofInt_pos (Pos.pred q)) by lia.
    assert (Hdiff : Zpos (shlP q 52) - Zpos (shlP 1 52)
                    = Zpos (shlP (Pos.pred q) 52)).
    { rewrite !Zpos_shlP by lia. lia. }
    rewrite Hdiff. cbn [binary_normalize].
    apply (binary_round_shl (Pos.pred q) 52); [| lia].
    apply digits_le_53. lia.
Qed.

Lemma f64sub_one (k : Z) :
  1 <= k <= 2 ^ 53 ->
  f64sub (f64ofInt k) (f64ofInt 1) = f64ofInt (k - 1).
Proof.
  intros Hk. destruct (Z.eq_dec k (2 ^ 53)) as [-> | Hne].
  - vm_compute. reflexivity.
  - apply f64sub_one_small. lia.
Qed.

Lemma f64leb_one (k : Z) :
  1 <= k <= 2 ^ 53 -> f64leb (f64ofInt 1) (f64ofInt k) = true.
Proof.
  intros Hk. destruct (Z.eq_dec k (2 ^ 53)) as [-> | Hne];
    [vm_compute; reflexivity |].
  destruct k as [| q | q]; try lia.
  change (f64ofInt 1) with (S754_finite false (shlP 1 52) (-52)).
  rewrite (f64ofInt_pos q) by lia.
  pose proof (Pos2Z.is_pos (digits2_pos q)) as Hd0.
  unfold f64leb, SFleb, SFcompare.
  destruct (Z.compare_spec (-52) (Zpos (digits2_pos q) - 53)) as [He | Hl | Hg];
    [| reflexivity | lia].
  assert (Hd1 : Zpos (digits2_pos q) = 1) by lia.
  assert (q = 1%positive) as ->.
  { pose proof (digits_bounds q) as [_ Hhi]. rewrite Hd1 in Hhi.
    change (2 ^ 1) with 2 in Hhi. lia. }
  reflexivity.
Qed.

Lemma f64ltb_burst (B k : Z) :
  1 <= B <= 2 ^ 53 -> 0 <= k <= B ->
  f64ltb (f64ofInt B) (f64ofInt k) = false.
Proof.
  intros HB Hk.
  destruct k as [| q | q]; try lia.
  - (* zero tokens *)
    destruct (Z.eq_dec B (2 ^ 53)) as [-> | Hne]; [reflexivity |].
    destruct B as [| p | p]; try lia.
    rewrite (f64ofInt_pos p) by lia. reflexivity.
  - destruct (Z.eq_dec (Zpos q) (2 ^ 53)) as [Hq | Hq].
    + assert (B = 2 ^ 53) as -> by lia. rewrite Hq. reflexivity.
    + rewrite (f64ofInt_pos q) by lia.
      pose proof (digits_le_53 q ltac:(lia)) as Hdq.
      destruct (Z.eq_dec B (2 ^ 53)) as [-> | Hne].
      * change (f64ofInt (2 ^ 53))
          with (S754_finite false 4503599627370496 1).
        unfold f64ltb, SFltb, SFcompare.
        destruct (Z.compare_spec 1 (Zpos (digits2_pos q) - 53));
          try reflexivity; lia.
      * destruct B as [| p | p]; try lia.
        rewrite (f64ofInt_pos p) by lia.
        pose proof (digits_mono q p ltac:(lia)) as Hmono.
        unfold f64ltb, SFltb, SFcompare.
        destruct (Z.compare_spec (Zpos (digits2_pos p) - 53)
                    (Zpos (digits2_pos q) - 53)) as [He | Hl | Hg];
          [| lia | reflexivity].
        rewrite Pos.compare_cont_spec. cbn [Pos.switch_Eq].
        assert (Hd : digits2_pos p = digits2_pos q) by lia.
        rewrite Hd.
        destruct (Pos.compare_spec
                    (shlP p (53 - Zpos (digits2_pos q)))
                    (shlP q (53 - Zpos (digits2_pos q)))) as [| Hlt |];
          try reflexivity.
        apply Pos2Z.pos_lt_pos in Hlt.
        rewrite !Zpos_shlP in Hlt by lia.
        assert (0 < 2 ^ (53 - Zpos (digits2_pos q)))
          by (apply Z.pow_pos_nonneg; lia).
        nia.
Qed.

Lemma f64add_zero (k : Z) :
  0 <= k <= 2 ^ 53 ->
  f64add (f64ofInt k) (S754_zero false) = f64ofInt k.
Proof.
  intros Hk. destruct (Z.eq_dec k (2 ^ 53)) as [-> | Hne]; [reflexivity |].
  destruct k as [| q | q]; try lia; [reflexivity |].
  rewrite (f64ofInt_pos q) by lia. reflexivity.
Qed.

(* ===================================================================== *)
(** ** Rate limiter: burst and refill *)
(* ===================================================================== *)

Section RateLimitFacts.

Context {W Ctx A : Type} {RT : Runtime W Ctx}.

Variable options : RateLimitOptions (W := W).

Lemma RateLimitNow_resolved :
  RateLimitNow (applyRateLimitDefaults options)
  = Some (rateLimitClock options).
Proof.
  unfold rateLimitClock, applyRateLimitDefaults.
  destruct options as [r b now]. cbn [RateLimitNow Burst Rate].
  destruct (f64leb r (f64ofInt 0)); cbn [RateLimitNow Burst Rate];
    destruct (b <=? 0); cbn [RateLimitNow Burst Rate];
    destruct now; reflexivity.
Qed.

Lemma Sub_self (t : Time) : Sub t t = 0.
Proof. unfold Sub, minInt64, maxInt64. rewrite Z.sub_diag. lia. Qed.

Section Frozen.

Variables (m : positive) (e : Z).

Hypothesis burst_exact :
  1 <= Burst (applyRateLimitDefaults options) <= 2 ^ 53.
Hypothesis rate_finite :
  Rate (applyRateLimitDefaults options) = S754_finite false m e.

(** The admission check when the clock has not advanced since the last
    one and the bucket holds an integer number of tokens. *)
Lemma allow_clock_frozen (k : Z) (t : Time) (w : W) :
  rateLimitClock options w = t ->
  0 <= k <= Burst (applyRateLimitDefaults options) ->
  allow (applyRateLimitDefaults options)
    {| tokens := f64ofInt k; lastAt := t |} w
  = if 1 <=? k
    then Ok (true, {| tokens := f64ofInt (k - 1); lastAt := t |})
    else Ok (false, {| tokens := f64ofInt k; lastAt := t |}).
Proof.
  intros Hclock Hk. unfold allow. rewrite RateLimitNow_resolved.
  cbn [callNow bind tokens lastAt]. rewrite Hclock, Sub_self, rate_finite.
  change (f64mul (Seconds 0) (S754_finite false m e))
    with (S754_zero false).
  rewrite f64add_zero by lia.
  rewrite f64ltb_burst by lia.
  destruct (Z.leb_spec 1 k) as [Hpos | Hzero].
  - rewrite f64leb_one by lia. rewrite f64sub_one by lia. reflexivity.
  - assert (k = 0) as -> by lia. reflexivity.
Qed.

Variables (next : Handler W Ctx A) (ctx : Ctx).

Hypothesis not_cancelled : forall w, ctxErr ctx w = None.
Hypothesis clock_kept :
  forall w out w', next ctx w = Ok (out, w') ->
    rateLimitClock options w' = rateLimitClock options w.

(** While tokens are left and the clock stands still, calls through the
    limiter are calls of the operation, one token each. *)
Lemma burst_admitted (j : nat) :
  forall (k : Z) (t : Time) (w : W),
    rateLimitClock options w = t ->
    Z.of_nat j <= k <= Burst (applyRateLimitDefaults options) ->
    callTimes (RateLimit options next) ctx j
      ({| tokens := f64ofInt k; lastAt := t |}, w)
    = match callTimes next ctx j w with
      | Ok (outs, w') =>
          Ok (outs, ({| tokens := f64ofInt (k - Z.of_nat j); lastAt := t |},
                     w'))
      | Panic r => Panic r
      end.
Proof.
  induction j as [| j IH]; intros k t w Hclock Hk.
  - cbn [callTimes]. rewrite Z.sub_0_r. reflexivity.
  - cbn [callTimes]. unfold RateLimit at 1. rewrite not_cancelled.
    rewrite allow_clock_frozen by (auto; lia).
    destruct (Z.leb_spec 1 k); [| lia]. cbn [bind negb].
    destruct (next ctx w) as [[out w1] | r] eqn:Hn; cbn [bind];
      [| reflexivity].
    rewrite IH by (try lia; rewrite (clock_kept _ _ _ Hn); exact Hclock).
    destruct (callTimes next ctx j w1) as [[outs w2] | r]; cbn [bind];
      [| reflexivity].
    replace (k - Z.of_nat (S j)) with (k - 1 - Z.of_nat j) by lia.
    reflexivity.
Qed.


(** The admission check on an empty bucket when the refill since the last
    check is exactly one token. *)
Lemma allow_refill_one (t : Time) (w : W) :
  f64mul (Seconds (Sub (rateLimitClock options w) t))
    (Rate (applyRateLimitDefaults options)) = f64ofInt 1 ->
  allow (applyRateLimitDefaults options)
    {| tokens := f64ofInt 0; lastAt := t |} w
  = Ok (true, {| tokens := f64ofInt 0;
                 lastAt := rateLimitClock options w |}).
Proof.
  intros Hone. unfold allow. rewrite RateLimitNow_resolved.
  cbn [callNow bind tokens lastAt]. rewrite Hone.
  change (f64add (f64ofInt 0) (f64ofInt 1)) with (f64ofInt 1).
  rewrite f64ltb_burst by lia.
  reflexivity.
Qed.

End Frozen.

(** C8, amended.  Let the burst B be between 1 and 2^53 and the rate be
    finite and positive, the context not cancelled, and let the operation
    leave the limiter's clock alone.  The bucket starts with B tokens.
    While the clock stands still:
    - the first j <= B calls are the calls of the operation itself, outcome
      by outcome, and leave B - j tokens;
    - with no token left, a call returns (nil, ErrRateLimitExceeded) and
      leaves bucket and world as they are, whatever the wrapped handler.
    When the clock has then advanced by a duration whose float64 seconds
    times the rate is exactly 1, a call is the call of the operation and
    leaves the bucket empty again, so that the call after it is rejected. *)
Theorem rateLimit_burst_then_refill :
  forall (next : Handler W Ctx A) (ctx : Ctx) (w0 : W) (m : positive) (e : Z),
    1 <= Burst (applyRateLimitDefaults options) <= 2 ^ 53 ->
    Rate (applyRateLimitDefaults options) = S754_finite false m e ->
    (forall w, ctxErr ctx w = None) ->
    (forall w out w', next ctx w = Ok (out, w') ->
       rateLimitClock options w' = rateLimitClock options w) ->
    newBucket options w0
    = Ok {| tokens := f64ofInt (Burst (applyRateLimitDefaults options));
            lastAt := rateLimitClock options w0 |} /\
    (forall j : nat,
        Z.of_nat j <= Burst (applyRateLimitDefaults options) ->
        callTimes (RateLimit options next) ctx j
          ({| tokens := f64ofInt (Burst (applyRateLimitDefaults options));
              lastAt := rateLimitClock options w0 |}, w0)
        = match callTimes next ctx j w0 with
          | Ok (outs, w') =>
              Ok (outs,
                  ({| tokens :=
                        f64ofInt (Burst (applyRateLimitDefaults options)
                                  - Z.of_nat j);
                      lastAt := rateLimitClock options w0 |}, w'))
          | Panic r => Panic r
          end) /\
    (forall (next' : Handler W Ctx A) (t : Time) (w : W),
        rateLimitClock options w = t ->
        RateLimit options next' ctx
          ({| tokens := f64ofInt 0; lastAt := t |}, w)
        = Ok ((None, Some ErrRateLimitExceeded),
              ({| tokens := f64ofInt 0; lastAt := t |}, w))) /\
    (forall (t : Time) (w : W),
        f64mul (Seconds (Sub (rateLimitClock options w) t))
          (Rate (applyRateLimitDefaults options)) = f64ofInt 1 ->
        RateLimit options next ctx
          ({| tokens := f64ofInt 0; lastAt := t |}, w)
        = match next ctx w with
          | Ok (out, w') =>
              Ok (out, ({| tokens := f64ofInt 0;
                           lastAt := rateLimitClock options w |}, w'))
          | Panic r => Panic r
          end /\
        forall out w',
          next ctx w = Ok (out, w') ->
          RateLimit options next ctx
            ({| tokens := f64ofInt 0;
                lastAt := rateLimitClock options w |}, w')
          = Ok ((None, Some ErrRateLimitExceeded),
                ({| tokens := f64ofInt 0;
                    lastAt := rateLimitClock options w |}, w'))).
Proof.
  intros next ctx w0 m e HB Hrate Hctx Hclock.
  assert (Hreject : forall (next' : Handler W Ctx A) (t : Time) (w : W),
             rateLimitClock options w = t ->
             RateLimit options next' ctx
               ({| tokens := f64ofInt 0; lastAt := t |}, w)
             = Ok ((None, Some ErrRateLimitExceeded),
                   ({| tokens := f64ofInt 0; lastAt := t |}, w))).
  { intros next' t w Ht. unfold RateLimit. rewrite Hctx.
    rewrite (allow_clock_frozen m e HB Hrate 0 t w Ht) by lia.
    reflexivity. }
  split; [| split; [| split]].
  - unfold newBucket. rewrite RateLimitNow_resolved. reflexivity.
  - intros j Hj.
    apply (burst_admitted m e HB Hrate next ctx Hctx Hclock); [reflexivity |].
    lia.
  - exact Hreject.
  - intros t w Hone. split.
    + unfold RateLimit. rewrite Hctx.
      rewrite (allow_refill_one HB t w Hone). cbn [bind negb].
      destruct (next ctx w) as [[out w'] | r]; reflexivity.
    + intros out w' Hn. apply Hreject. apply (Hclock _ _ _ Hn).
Qed.

End RateLimitFacts.



(** C8 as stated fails in float64.
    - Burst 2^54, rate 1: the first call is admitted and leaves the bucket
      as it was, 2^54 - 1 being no float64: no token is consumed.
    - Burst 1, rate 625/1024 per second: the first call takes the token, the
      second is rejected; 1638400000 ns later, which is exactly 1/rate
      seconds, the refill computed is 1 - 2^-53 and the call is rejected.
    - Burst 5, rate +Inf, clock standing still: the refill 0 * Inf is NaN and
      the first call is rejected. *)
Lemma rateLimit_float_rounding :
  (let options := simRateOptions (f64ofInt 1) (2 ^ 54) in
   let b0 := {| tokens := f64ofInt (2 ^ 54); lastAt := 0 |} in
   newBucket options simStart = Ok b0 /\
   RateLimit options simSucceeds Background (b0, simStart)
   = Ok ((Some 123%nat, None), (b0, simTick simStart))) /\
  (let options := simRateOptions slowRate 1 in
   1638400000 * 625 = 1024 * Second /\
   newBucket options simStart
   = Ok {| tokens := f64ofInt 1; lastAt := 0 |} /\
   callTimes (RateLimit options simSucceeds) Background 2
     ({| tokens := f64ofInt 1; lastAt := 0 |}, simStart)
   = Ok ([(Some 123%nat, None); (None, Some ErrRateLimitExceeded)],
         ({| tokens := f64ofInt 0; lastAt := 0 |}, simTick simStart)) /\
   exists b,
     RateLimit options simSucceeds Background
       ({| tokens := f64ofInt 0; lastAt := 0 |},
        simAdvance 1638400000 (simTick simStart))
     = Ok ((None, Some ErrRateLimitExceeded),
           (b, simAdvance 1638400000 (simTick simStart)))) /\
  (let options := simRateOptions (S754_infinity false) 5 in
   newBucket options simStart
   = Ok {| tokens := f64ofInt 5; lastAt := 0 |} /\
   RateLimit options simSucceeds Background
     ({| tokens := f64ofInt 5; lastAt := 0 |}, simStart)
   = Ok ((None, Some ErrRateLimitExceeded),
         ({| tokens := S754_nan; lastAt := 0 |}, simStart))).
Proof.
  split; [| split].
  - split; vm_compute; reflexivity.
  - split; [reflexivity |]. split; [vm_compute; reflexivity |].
    split; [vm_compute; reflexivity |].
    eexists. vm_compute. reflexivity.
  - split; vm_compute; reflexivity.
Qed.

Lemma rateLimit_burst_then_refill_witness :
  let options := simRateOptions (f64ofInt 1) 2 in
  callTimes (RateLimit options simSucceeds) Background 2
    ({| tokens := f64ofInt 2; lastAt := 0 |}, simStart)
  = Ok ([(Some 123%nat, None); (Some 123%nat, None)],
        ({| tokens := f64ofInt 0; lastAt := 0 |},
         simTick (simTick simStart))) /\
  RateLimit options simSucceeds Background
    ({| tokens := f64ofInt 0; lastAt := 0 |}, simTick (simTick simStart))
  = Ok ((None, Some ErrRateLimitExceeded),
        ({| tokens := f64ofInt 0; lastAt := 0 |},
         simTick (simTick simStart))) /\
  RateLimit options simSucceeds Background
    ({| tokens := f64ofInt 0; lastAt := 0 |},
     simAdvance Second (simTick (simTick simStart)))
  = Ok ((Some 123%nat, None),
        ({| tokens := f64ofInt 0; lastAt := Second |},
         simTick (simAdvance Second (simTick (simTick simStart))))).
Proof.
  intros options.
  destruct (rateLimit_burst_then_refill options simSucceeds Background
              simStart 4503599627370496 (-52))
    as (_ & Hburst & Hreject & Hrefill).
  - vm_compute. split; discriminate.
  - reflexivity.
  - intros w. reflexivity.
  - intros w out w' [= <- <-]. reflexivity.
  - split; [| split].
    + apply (Hburst 2%nat). vm_compute. discriminate.
    + apply (Hreject simSucceeds). reflexivity.
    + destruct (Hrefill 0 (simAdvance Second (simTick (simTick simStart))))
        as [Hadmit _]; [vm_compute; reflexivity |].
      exact Hadmit.
Defined.

(* ===================================================================== *)
(** ** Execute: composition laws *)
(* ===================================================================== *)

Section ComposeFacts.

Context {W Ctx A : Type} {RT : Runtime W Ctx}.

(** X1.  Execute over a list of policies split in two is Execute of the
    front part over the base operation already wrapped by the back part; a
    policy that returns its handler unchanged, such as Timeout with a
    negative duration, can be dropped from any position of the list. *)
Theorem Execute_splits_and_drops_identity :
  forall (ctx : Ctx) (handler : Handler W Ctx A)
         (front back : list (Policy W Ctx A)),
    Execute ctx handler (front ++ back)
    = Execute ctx (nest back handler) front /\
    (forall p : Policy W Ctx A,
        (forall h, p h = h) ->
        Execute ctx handler (front ++ p :: back)
        = Execute ctx handler (front ++ back)) /\
    (forall options : TimeoutOptions,
        TimeoutDuration options < 0 ->
        Execute ctx handler (front ++ Timeout options :: back)
        = Execute ctx handler (front ++ back)).
Proof.
  intros ctx handler front back.
  assert (Hsplit : forall l1 l2 : list (Policy W Ctx A),
             Execute ctx handler (l1 ++ l2)
             = Execute ctx (nest l2 handler) l1).
  { intros l1 l2. rewrite !Execute_nest. unfold nest.
    rewrite fold_right_app. reflexivity. }
  assert (Hdrop : forall p : Policy W Ctx A,
             (forall h, p h = h) ->
             Execute ctx handler (front ++ p :: back)
             = Execute ctx handler (front ++ back)).
  { intros p Hid. rewrite !Hsplit. cbn [nest fold_right].
    rewrite Hid. reflexivity. }
  split; [apply Hsplit |]. split; [exact Hdrop |].
  intros options Hneg. apply Hdrop.
  intros h. apply Timeout_disabled. exact Hneg.
Qed.

End ComposeFacts.

Lemma Execute_splits_and_drops_identity_witness :
  Execute Background simSucceeds
    [Retry fixedRetryOptions; Timeout {| TimeoutDuration := -1 |}]
  = Execute Background simSucceeds [Retry fixedRetryOptions].
Proof.
  destruct (Execute_splits_and_drops_identity (RT := simRuntime)
              Background simSucceeds [Retry fixedRetryOptions] [])
    as (_ & _ & Hdrop).
  apply (Hdrop {| TimeoutDuration := -1 |}). reflexivity.
Defined.

(* ===================================================================== *)
(** ** Retry: defaults and edges *)
(* ===================================================================== *)

(** applyDefaults, field by field. *)
Lemma applyDefaults_fields (n d m : Z) (b : BackoffStrategy) (j : bool) :
  applyDefaults {| MaxAttempts := n; InitialDelay := d;
                   MaxDelay := m; Backoff := b; Jitter := j |}
  = {| MaxAttempts := if n =? 0 then 3 else n;
       InitialDelay := if d =? 0 then 100 * Millisecond else d;
       MaxDelay := if m =? 0 then 5 * Second else m;
       Backoff := if String.eqb b "" then BackoffExponential else b;
       Jitter := j |}.
Proof.
  unfold applyDefaults.
  cbn [MaxAttempts InitialDelay MaxDelay Backoff Jitter].
  destruct (n =? 0); cbn [MaxAttempts InitialDelay MaxDelay Backoff Jitter];
    destruct (d =? 0);
    cbn [MaxAttempts InitialDelay MaxDelay Backoff Jitter];
    destruct (m =? 0);
    cbn [MaxAttempts InitialDelay MaxDelay Backoff Jitter];
    destruct (String.eqb b ""); reflexivity.
Qed.

Lemma applyDefaults_Jitter (options : RetryOptions) :
  Jitter (applyDefaults options) = Jitter options.
Proof. destruct options. rewrite applyDefaults_fields. reflexivity. Qed.

Lemma applyDefaults_MaxAttempts (options : RetryOptions) :
  MaxAttempts (applyDefaults options)
  = if MaxAttempts options =? 0 then 3 else MaxAttempts options.
Proof. destruct options. rewrite applyDefaults_fields. reflexivity. Qed.

(** X2.  applyDefaults replaces exactly the fields that are zero (the empty
    string for the strategy) by 3 attempts, 100 ms, 5 s and exponential
    backoff, keeps every other value, negative ones included, and never
    touches Jitter: the zero options resolve with jitter off.  Applying it
    twice changes nothing more. *)
Theorem applyDefaults_fills_zero_fields :
  forall options : RetryOptions,
    MaxAttempts (applyDefaults options)
    = (if MaxAttempts options =? 0 then 3 else MaxAttempts options) /\
    InitialDelay (applyDefaults options)
    = (if InitialDelay options =? 0 then 100 * Millisecond
       else InitialDelay options) /\
    MaxDelay (applyDefaults options)
    = (if MaxDelay options =? 0 then 5 * Second else MaxDelay options) /\
    Backoff (applyDefaults options)
    = (if String.eqb (Backoff options) "" then BackoffExponential
       else Backoff options) /\
    Jitter (applyDefaults options) = Jitter options /\
    applyDefaults (applyDefaults options) = applyDefaults options /\
    applyDefaults {| MaxAttempts := 0; InitialDelay := 0; MaxDelay := 0;
                     Backoff := ""; Jitter := false |}
    = {| MaxAttempts := 3; InitialDelay := 100 * Millisecond;
         MaxDelay := 5 * Second; Backoff := BackoffExponential;
         Jitter := false |}.
Proof.
  intros [n d m b j]. rewrite !applyDefaults_fields.
  cbn [MaxAttempts InitialDelay MaxDelay Backoff Jitter].
  repeat split.
  f_equal.
  - destruct (Z.eqb_spec n 0) as [-> | Hn]; [reflexivity |].
    destruct (Z.eqb_spec n 0); [contradiction | reflexivity].
  - destruct (Z.eqb_spec d 0) as [-> | Hd]; [reflexivity |].
    destruct (Z.eqb_spec d 0); [contradiction | reflexivity].
  - destruct (Z.eqb_spec m 0) as [-> | Hm]; [reflexivity |].
    destruct (Z.eqb_spec m 0); [contradiction | reflexivity].
  - destruct (String.eqb b "") eqn:Hb; [reflexivity |].
    rewrite Hb. reflexivity.
Qed.

Section RetryMoreFacts.

Context {W Ctx A : Type} {RT : Runtime W Ctx}.

Section FirstSuccess.

Variables (opts : RetryOptions) (next : Handler W Ctx A) (ctx : Ctx).
Variables (count : W -> nat) (j : nat) (r : option A).

Hypothesis jitter_off : Jitter opts = false.
Hypothesis attempts_int : MaxAttempts opts <= maxInt64.
Hypothesis not_cancelled : forall w, ctxErr ctx w = None.
Hypothesis fails_first :
  forall w, (count w < j)%nat ->
    exists r' e w', next ctx w = Ok ((r', Some e), w') /\
                    count w' = S (count w).
Hypothesis then_succeeds :
  forall w, count w = j ->
    exists w', next ctx w = Ok ((r, None), w') /\ count w' = S (count w).
Hypothesis wait_keeps_count :
  forall d w, count (afterWait d ctx w) = count w.

Lemma retryLoop_first_success (remaining : nat) :
  forall (lastErr : error) (w : W),
    (count w <= j)%nat ->
    (j - count w < remaining)%nat ->
    Z.of_nat (count w) + Z.of_nat remaining = MaxAttempts opts ->
    exists w',
      retryLoop opts next ctx remaining (Z.of_nat (count w)) lastErr w
      = Ok ((r, None), w') /\
      count w' = S j.
Proof.
  induction remaining as [| remaining IH]; intros lastErr w Hle Hrem Hsum;
    [lia |].
  cbn [retryLoop]. rewrite not_cancelled.
  destruct (Nat.eq_dec (count w) j) as [Heq | Hne].
  - destruct (then_succeeds w Heq) as (w' & Hn & Hc).
    rewrite Hn. cbn [bind]. exists w'. split; [reflexivity | lia].
  - destruct (fails_first w ltac:(lia)) as (r' & e & w1 & Hn & Hc).
    rewrite Hn. cbn [bind].
    rewrite (wrap64_small (MaxAttempts opts - 1))
      by (unfold minInt64, maxInt64 in *; lia).
    destruct (Z.eqb_spec (Z.of_nat (count w)) (MaxAttempts opts - 1));
      [lia |].
    rewrite computeDelay_no_jitter by assumption. cbn [bind].
    rewrite not_cancelled.
    rewrite (wrap64_small (Z.of_nat (count w) + 1))
      by (unfold minInt64, maxInt64 in *; lia).
    set (w3 := afterWait _ ctx w1).
    assert (Hc3 : count w3 = S (count w))
      by (unfold w3; rewrite wait_keeps_count; exact Hc).
    replace (Z.of_nat (count w) + 1) with (Z.of_nat (count w3)) by lia.
    apply IH; lia.
Qed.

End FirstSuccess.

(** X6.  Retry stops at the first success.  Let the operation count its
    invocations, fail on the first j of them and succeed on the next, with j
    below the number of attempts, jitter off and a context that is not
    cancelled: Retry returns that success, result included, and the
    operation has been invoked exactly j + 1 times. *)
Theorem Retry_returns_first_success :
  forall (options : RetryOptions) (next : Handler W Ctx A) (ctx : Ctx)
         (count : W -> nat) (j : nat) (r : option A) (w : W),
    Jitter options = false ->
    Z.of_nat j < MaxAttempts (applyDefaults options) <= maxInt64 ->
    (forall w, ctxErr ctx w = None) ->
    (forall w, (count w < j)%nat ->
       exists r' e w', next ctx w = Ok ((r', Some e), w') /\
                       count w' = S (count w)) ->
    (forall w, count w = j ->
       exists w', next ctx w = Ok ((r, None), w') /\ count w' = S (count w)) ->
    (forall d w, count (afterWait d ctx w) = count w) ->
    count w = O ->
    exists w',
      Retry options next ctx w = Ok ((r, None), w') /\ count w' = S j.
Proof.
  intros options next ctx count j r w Hj Hn Hctx Hfail Hsucc Hwait H0.
  unfold Retry.
  assert (Hj' : Jitter (applyDefaults options) = false).
  { rewrite applyDefaults_Jitter. exact Hj. }
  destruct (retryLoop_first_success (applyDefaults options) next ctx count j r
              Hj' (proj2 Hn) Hctx Hfail Hsucc Hwait
              (Z.to_nat (MaxAttempts (applyDefaults options))) None w)
    as (w' & Hrun & Hc); try lia.
  rewrite H0 in Hrun. exists w'. split; assumption.
Qed.

(** X7.  A negative MaxAttempts is kept by applyDefaults, and with it the
    loop of Retry is not entered: the call returns a nil result with a nil
    error, in the world it was given, for every wrapped handler and every
    context -- the operation is not invoked and a cancelled context is not
    reported. *)
Theorem Retry_negative_attempts_returns_nil :
  forall (options : RetryOptions) (next : Handler W Ctx A) (ctx : Ctx)
         (w : W),
    MaxAttempts options < 0 ->
    MaxAttempts (applyDefaults options) = MaxAttempts options /\
    Retry options next ctx w = Ok ((None, None), w).
Proof.
  intros options next ctx w Hneg.
  assert (Hkeep : MaxAttempts (applyDefaults options) = MaxAttempts options).
  { rewrite applyDefaults_MaxAttempts.
    destruct (Z.eqb_spec (MaxAttempts options) 0); [lia |].
    reflexivity. }
  split; [exact Hkeep |].
  unfold Retry. rewrite Hkeep.
  destruct (MaxAttempts options) as [| p | p]; try lia. reflexivity.
Qed.

(** Iterations that fail and wait without the context being done only move
    the loop on. *)
Lemma retryLoop_after_failedAttempts (opts : RetryOptions)
    (next : Handler W Ctx A) (ctx : Ctx) (k : nat) :
  forall (remaining : nat) (attempt : Z) (lastErr : error) (w0 w : W),
    0 <= attempt ->
    attempt + Z.of_nat k < MaxAttempts opts - 1 ->
    MaxAttempts opts <= maxInt64 ->
    failedAttempts opts next ctx k attempt w0 = Some w ->
    exists lastErr',
      retryLoop opts next ctx (k + remaining) attempt lastErr w0
      = retryLoop opts next ctx remaining (attempt + Z.of_nat k) lastErr' w.
Proof.
  induction k as [| k IH]; intros remaining attempt lastErr w0 w Ha Hlt Hmax.
  - cbn [failedAttempts]. intros [= <-]. exists lastErr.
    replace (attempt + Z.of_nat 0) with attempt by lia. reflexivity.
  - cbn [failedAttempts Nat.add retryLoop].
    destruct (ctxErr ctx w0); [discriminate |].
    destruct (next ctx w0) as [[[r [e |]] w1] | m]; try discriminate.
    cbn [bind].
    rewrite (wrap64_small (MaxAttempts opts - 1))
      by (unfold minInt64, maxInt64 in *; lia).
    destruct (Z.eqb_spec attempt (MaxAttempts opts - 1)); [lia |].
    destruct (computeDelay attempt opts w1) as [[d w2] | m];
      [| discriminate].
    cbn [bind].
    destruct (ctxErr ctx (afterWait d ctx w2)); [discriminate |].
    rewrite (wrap64_small (attempt + 1))
      by (unfold minInt64, maxInt64 in *; lia).
    intros Hrest.
    destruct (IH remaining (attempt + 1) (Some e) (afterWait d ctx w2) w)
      as [lastErr' Hrun]; try lia; [exact Hrest |].
    exists lastErr'. rewrite Hrun. f_equal. lia.
Qed.

(** X8.  Cancellation during the wait.  Let k attempts have failed, each
    followed by a wait that returned with the context not done, and let the
    next attempt, which is not the last, fail too.  When the context is done
    in the world the wait after it returns in, Retry returns nil with the
    context's error -- not the operation's -- in that world: no further
    attempt is made.  This holds for every k, with jitter on or off. *)
Theorem Retry_cancelled_during_wait :
  forall (options : RetryOptions) (next : Handler W Ctx A) (ctx : Ctx)
         (k : nat) (w0 w w1 w2 : W) (r : option A) (e ce : GoError)
         (d : Duration),
    Z.of_nat k + 2 <= MaxAttempts (applyDefaults options) <= maxInt64 ->
    failedAttempts (applyDefaults options) next ctx k 0 w0 = Some w ->
    ctxErr ctx w = None ->
    next ctx w = Ok ((r, Some e), w1) ->
    computeDelay (Z.of_nat k) (applyDefaults options) w1 = Ok (d, w2) ->
    ctxErr ctx (afterWait d ctx w2) = Some ce ->
    Retry options next ctx w0 = Ok ((None, Some ce), afterWait d ctx w2).
Proof.
  intros options next ctx k w0 w w1 w2 r e ce d Hn Hpre Hctx Hnext Hd Hdone.
  unfold Retry.
  replace (Z.to_nat (MaxAttempts (applyDefaults options)))
    with (k + S (Z.to_nat (MaxAttempts (applyDefaults options))
                 - S k))%nat by lia.
  destruct (retryLoop_after_failedAttempts (applyDefaults options) next ctx k
              (S (Z.to_nat (MaxAttempts (applyDefaults options)) - S k))
              0 None w0 w) as [lastErr' Hrun]; try lia; [exact Hpre |].
  rewrite Hrun. cbn [retryLoop Z.add]. rewrite Hctx, Hnext. cbn [bind].
  rewrite wrap64_small by (unfold minInt64, maxInt64 in *; lia).
  destruct (Z.eqb_spec (Z.of_nat k)
              (MaxAttempts (applyDefaults options) - 1)); [lia |].
  rewrite Hd. cbn [bind]. rewrite Hdone. reflexivity.
Qed.

(** X9.  The earlier Retry with MaxAttempts <= 0 does not enter its loop: it
    returns nil with the error "max attempts reached", made on the spot, in
    the world it was given, for every wrapped handler -- the operation is
    not invoked. *)
Theorem SimpleRetry_no_attempts_synthetic_error :
  forall (options : SimpleRetry.RetryOptions) (next : Handler W Ctx A)
         (ctx : Ctx) (w : W),
    SimpleRetry.MaxAttempts options <= 0 ->
    SimpleRetry.Retry options next ctx w
    = Ok ((None, Some (ErrorsNew "max attempts reached")), w).
Proof.
  intros options next ctx w Hn. unfold SimpleRetry.Retry.
  destruct (SimpleRetry.MaxAttempts options) as [| p | p]; try lia;
    reflexivity.
Qed.

End RetryMoreFacts.

Lemma computeDelay_formula_witness :
  computeDelay 2 longRetryOptions simStart = Ok (400 * Millisecond, simStart).
Proof.
  apply (computeDelay_formula (RT := simRuntime) 2 longRetryOptions simStart).
  - reflexivity.
  - lia.
  - unfold inInt64, minInt64, maxInt64. cbn. lia.
Defined.

Lemma Retry_exhausts_attempts_no_jitter_witness :
  exists e w' log,
    Retry fixedRetryOptions (recorded simFails) Background (simStart, [])
    = Ok ((None, Some e), (w', log)) /\
    Z.of_nat (List.length log) = 3 /\
    last log None = Some e.
Proof.
  apply (Retry_exhausts_attempts_no_jitter (RT := simRuntime)
           fixedRetryOptions simFails Background simStart).
  - reflexivity.
  - cbn. unfold maxInt64. lia.
  - intros w. reflexivity.
  - intros w. exists None, (OpError (S (simCalls w))), (simTick w).
    reflexivity.
Defined.

Lemma SimpleRetry_exhausts_attempts_witness :
  exists e w' log,
    SimpleRetry.Retry
      {| SimpleRetry.MaxAttempts := 3; SimpleRetry.Delay := 1 * Second |}
      (recorded simFails) Background (simStart, [])
    = Ok ((None, Some e), (w', log)) /\
    Z.of_nat (List.length log) = 3 /\
    last log None = Some e.
Proof.
  apply (SimpleRetry_exhausts_attempts (RT := simRuntime)
           {| SimpleRetry.MaxAttempts := 3; SimpleRetry.Delay := 1 * Second |}
           simFails Background simStart).
  - cbn. unfold maxInt64. lia.
  - intros w. exists None, (OpError (S (simCalls w))), (simTick w).
    reflexivity.
Defined.

Lemma Retry_returns_first_success_witness :
  exists w',
    Retry fixedRetryOptions (simFailsFirst 1) Background simStart
    = Ok ((Some 123%nat, None), w') /\
    simCalls w' = 2%nat.
Proof.
  apply (Retry_returns_first_success (RT := simRuntime) fixedRetryOptions
           (simFailsFirst 1) Background simCalls 1 (Some 123%nat) simStart).
  - reflexivity.
  - cbn. unfold maxInt64. lia.
  - intros w. reflexivity.
  - intros w Hlt. exists None, (OpError (S (simCalls w))), (simTick w).
    unfold simFailsFirst.
    destruct (Nat.ltb_spec (simCalls w) 1); [split; reflexivity | lia].
  - intros w Heq. exists (simTick w). unfold simFailsFirst.
    destruct (Nat.ltb_spec (simCalls w) 1); [lia | split; reflexivity].
  - intros d w. reflexivity.
  - reflexivity.
Defined.

Lemma Retry_negative_attempts_returns_nil_witness :
  Retry {| MaxAttempts := -1; InitialDelay := 0; MaxDelay := 0;
           Backoff := ""; Jitter := false |}
    simSucceeds Cancellable simCancelled
  = Ok ((None, None), simCancelled).
Proof.
  apply (Retry_negative_attempts_returns_nil (RT := simRuntime)
           {| MaxAttempts := -1; InitialDelay := 0; MaxDelay := 0;
              Backoff := ""; Jitter := false |}
           simSucceeds Cancellable simCancelled).
  reflexivity.
Defined.

Lemma Retry_cancelled_during_wait_witness :
  Retry (RT := simDeadlineRuntime)
    {| MaxAttempts := 3; InitialDelay := 30 * Millisecond; MaxDelay := 0;
       Backoff := BackoffFixed; Jitter := false |}
    simFails Cancellable simStart
  = Ok ((None, Some DeadlineExceeded),
        simAdvance (20 * Millisecond)
          (simTick (simAdvance (30 * Millisecond) (simTick simStart)))).
Proof.
  apply (Retry_cancelled_during_wait (RT := simDeadlineRuntime)
           {| MaxAttempts := 3; InitialDelay := 30 * Millisecond;
              MaxDelay := 0; Backoff := BackoffFixed; Jitter := false |}
           simFails Cancellable 1 simStart
           (simAdvance (30 * Millisecond) (simTick simStart))
           (simTick (simAdvance (30 * Millisecond) (simTick simStart)))
           (simTick (simAdvance (30 * Millisecond) (simTick simStart)))
           None (OpError 2) DeadlineExceeded (30 * Millisecond)).
  - cbn. unfold maxInt64. lia.
  - reflexivity.
  - reflexivity.
  - reflexivity.
  - reflexivity.
  - reflexivity.
Defined.

Lemma SimpleRetry_no_attempts_synthetic_error_witness :
  SimpleRetry.Retry
    {| SimpleRetry.MaxAttempts := 0; SimpleRetry.Delay := 1 * Second |}
    simSucceeds Background simStart
  = Ok ((None, Some (ErrorsNew "max attempts reached")), simStart).
Proof.
  apply (SimpleRetry_no_attempts_synthetic_error (RT := simRuntime)).
  cbn. lia.
Defined.

(* ===================================================================== *)
(** ** Circuit breaker: bookkeeping *)
(* ===================================================================== *)

Section BreakerMoreFacts.

Context {W Ctx A : Type} {RT : Runtime W Ctx}.

Variable options : CircuitBreakerOptions (W := W).

(** The three ways the admission check of a breaker ends under a context
    that is not cancelled. *)
Lemma beforeCall_cases (ctx : Ctx) (c : circuitBreaker) (w : W) :
  ctxErr ctx w = None ->
  exists c1 w1,
    beforeCall (applyCircuitBreakerDefaults options) ctx c w
    = Ok (None, c1, w1) \/
    beforeCall (applyCircuitBreakerDefaults options) ctx c w
    = Ok (Some ErrCircuitOpen, c1, w1) \/
    beforeCall (applyCircuitBreakerDefaults options) ctx c w
    = Ok (Some ErrCircuitHalfOpenBusy, c1, w1).
Proof.
  intros Hctx. unfold beforeCall. rewrite Hctx, (Now_resolved options).
  cbn [callNow bind].
  destruct (String.eqb (state c) CircuitClosed); [eauto |].
  destruct (String.eqb (state c) CircuitOpen).
  - destruct (OpenTimeout (applyCircuitBreakerDefaults options)
              <=? Sub (breakerClock options w) (openedAt c)); [| eauto 6].
    destruct (transitionLocked (applyCircuitBreakerDefaults options)
                CircuitHalfOpen c w) as [c1 w1].
    unfold admitHalfOpen. destruct (halfInFlight c1); eauto 6.
  - destruct (String.eqb (state c) CircuitHalfOpen); [| eauto 6].
    unfold admitHalfOpen. destruct (halfInFlight c); eauto 6.
Qed.

(** X10.  The breaker never rewrites an outcome.  Whatever a call through
    the breaker returns is the outcome of the wrapped operation, result and
    error as they are, or it is a nil result with the context's error, with
    ErrCircuitOpen or with ErrCircuitHalfOpenBusy. *)
Theorem breaker_returns_operation_outcome_or_sentinel :
  forall (next : Handler W Ctx A) (ctx : Ctx) (c : circuitBreaker) (w : W)
         (out : Outcome A) (s' : circuitBreaker * W),
    CircuitBreaker options next ctx (c, w) = Ok (out, s') ->
    (exists w1 w2, next ctx w1 = Ok (out, w2)) \/
    (exists e, ctxErr ctx w = Some e /\ out = (None, Some e) /\ s' = (c, w)) \/
    out = (None, Some ErrCircuitOpen) \/
    out = (None, Some ErrCircuitHalfOpenBusy).
Proof.
  intros next ctx c w out s'. unfold CircuitBreaker.
  destruct (ctxErr ctx w) as [e |] eqn:Hctx.
  - intros [= <- <-]. right. left. exists e. auto.
  - destruct (beforeCall_cases ctx c w Hctx) as (c1 & w1 & [Hb | [Hb | Hb]]);
      rewrite Hb; cbn [bind].
    + destruct (next ctx w1) as [[[r err] w2] | m] eqn:Hn; cbn [bind];
        [| discriminate].
      destruct (afterCall (applyCircuitBreakerDefaults options) err c1 w2)
        as [[c2 w3] | m]; cbn [bind]; [| discriminate].
      intros [= <- <-]. left. exists w1, w2. exact Hn.
    + intros [= <- <-]. auto.
    + intros [= <- <-]. auto.
Qed.

(** X11.  In the closed state, under a context that is not cancelled: a
    call whose operation succeeds returns the operation's outcome and sets
    the failure count to 0; a call whose operation fails with an error the
    trip predicate rejects returns that error as it is and leaves the
    breaker as it was, failure count included (such an error neither counts
    nor resets the count). *)
Theorem closed_success_resets_benign_error_keeps :
  forall (next : Handler W Ctx A) (ctx : Ctx) (c : circuitBreaker) (w : W),
    state c = CircuitClosed ->
    ctxErr ctx w = None ->
    (forall r w',
        next ctx w = Ok ((r, None), w') ->
        CircuitBreaker options next ctx (c, w)
        = Ok ((r, None), (setFailures c 0, w'))) /\
    (forall r e w',
        next ctx w = Ok ((r, Some e), w') ->
        tripPredicate options (Some e) = false ->
        CircuitBreaker options next ctx (c, w)
        = Ok ((r, Some e), (c, w'))).
Proof.
  intros next ctx c w Hs Hctx. split.
  - intros r w' Hn. unfold CircuitBreaker, beforeCall.
    rewrite Hctx, (Now_resolved options). cbn [callNow bind].
    rewrite Hs. streq. cbn [bind]. rewrite Hn. cbn [bind].
    unfold afterCall. rewrite Hs. streq. rewrite Hs. streq. reflexivity.
  - intros r e w' Hn Ht. unfold CircuitBreaker, beforeCall.
    rewrite Hctx, (Now_resolved options). cbn [callNow bind].
    rewrite Hs. streq. cbn [bind]. rewrite Hn. cbn [bind].
    unfold afterCall. rewrite Hs. streq.
    rewrite (ShouldTrip_resolved options), Ht. reflexivity.
Qed.


Ltac inv_solve :=
  cbn [state failures halfSuccess halfInFlight openedAt newCircuitBreaker
       opened setFailures setHalfSuccess setHalfInFlight setState
       setOpenedAt];
  repeat split; auto; try reflexivity; try lia.

Section Invariant.

Hypothesis failure_threshold :
  1 <= FailureThreshold (applyCircuitBreakerDefaults options) <= maxInt64.
Hypothesis success_threshold :
  1 <= SuccessThreshold (applyCircuitBreakerDefaults options) <= maxInt64.

Lemma beforeCall_keeps_invariant (ctx : Ctx) (c : circuitBreaker) (w : W) :
  breakerInvariant
    (FailureThreshold (applyCircuitBreakerDefaults options))
    (SuccessThreshold (applyCircuitBreakerDefaults options)) c ->
  exists e c' w',
    beforeCall (applyCircuitBreakerDefaults options) ctx c w
    = Ok (e, c', w') /\
    breakerInvariant
      (FailureThreshold (applyCircuitBreakerDefaults options))
      (SuccessThreshold (applyCircuitBreakerDefaults options)) c'.
Proof.
  intros Hinv.
  pose proof failure_threshold as HF. pose proof success_threshold as HS.
  set (FT := FailureThreshold (applyCircuitBreakerDefaults options)) in *.
  set (ST := SuccessThreshold (applyCircuitBreakerDefaults options)) in *.
  unfold beforeCall. destruct (ctxErr ctx w) as [e |]; [eauto |].
  rewrite (Now_resolved options). cbn [callNow bind].
  destruct Hinv as [(Hs & Hf & Hh & Hfl) | [(Hs & Hf & Hh & Hfl)
                                           | (Hs & Hf & Hh)]];
    rewrite Hs; streq.
  + do 3 eexists. split; [reflexivity |]. left. inv_solve.
  + destruct (OpenTimeout (applyCircuitBreakerDefaults options)
              <=? Sub (breakerClock options w) (openedAt c)).
    * rewrite (transitionLocked_other options CircuitOpen CircuitHalfOpen)
        by (auto; reflexivity).
      unfold admitHalfOpen. cbn [halfInFlight setState]. rewrite Hfl.
      do 3 eexists. split; [reflexivity |]. right. right.
      inv_solve.
    * do 3 eexists. split; [reflexivity |]. right. left. inv_solve.
  + unfold admitHalfOpen. destruct (halfInFlight c);
      do 3 eexists; (split; [reflexivity |]); right; right;
      inv_solve.
Qed.

Lemma afterCall_keeps_invariant (err : error) (c : circuitBreaker) (w : W) :
  breakerInvariant
    (FailureThreshold (applyCircuitBreakerDefaults options))
    (SuccessThreshold (applyCircuitBreakerDefaults options)) c ->
  exists c' w',
    afterCall (applyCircuitBreakerDefaults options) err c w = Ok (c', w') /\
    breakerInvariant
      (FailureThreshold (applyCircuitBreakerDefaults options))
      (SuccessThreshold (applyCircuitBreakerDefaults options)) c'.
Proof.
  intros Hinv.
  pose proof failure_threshold as HF. pose proof success_threshold as HS.
  set (FT := FailureThreshold (applyCircuitBreakerDefaults options)) in *.
  set (ST := SuccessThreshold (applyCircuitBreakerDefaults options)) in *.
  unfold afterCall.
  destruct Hinv as [(Hs & Hf & Hh & Hfl) | [(Hs & Hf & Hh & Hfl)
                                           | (Hs & Hf & Hh)]];
    rewrite Hs; streq.
  + (* closed *)
    destruct err as [e |].
    * rewrite (ShouldTrip_resolved options).
      destruct (tripPredicate options (Some e)); cbn [negb].
      -- rewrite Hs. streq. cbn [failures setFailures].
         rewrite wrap64_small by (unfold minInt64, maxInt64 in *; lia).
         fold FT.
         destruct (Z.leb_spec FT (failures c + 1)).
         ++ rewrite (openLocked_from options CircuitClosed)
              by (auto; reflexivity).
            do 2 eexists. split; [reflexivity |]. right. left.
            inv_solve.
         ++ do 2 eexists. split; [reflexivity |]. left.
            inv_solve.
      -- do 2 eexists. split; [reflexivity |]. left. inv_solve.
    * rewrite Hs. streq. do 2 eexists. split; [reflexivity |]. left.
      inv_solve.
  + (* open *)
    destruct err as [e |].
    * rewrite (ShouldTrip_resolved options).
      destruct (tripPredicate options (Some e)); cbn [negb].
      -- rewrite Hs. streq. do 2 eexists. split; [reflexivity |].
         right. left. inv_solve.
      -- do 2 eexists. split; [reflexivity |]. right. left. inv_solve.
    * rewrite Hs. streq. do 2 eexists. split; [reflexivity |].
      right. left. inv_solve.
  + (* half-open *)
    destruct err as [e |].
    * rewrite (ShouldTrip_resolved options).
      destruct (tripPredicate options (Some e)); cbn [negb].
      -- cbn [state setHalfInFlight]. rewrite Hs. streq.
         rewrite (openLocked_from options CircuitHalfOpen)
           by (auto; reflexivity).
         do 2 eexists. split; [reflexivity |]. right. left. inv_solve.
      -- do 2 eexists. split; [reflexivity |]. right. right.
         inv_solve.
    * cbn [state setHalfInFlight]. rewrite Hs. streq.
      cbn [halfSuccess setHalfSuccess setHalfInFlight].
      rewrite wrap64_small by (unfold minInt64, maxInt64 in *; lia).
      fold ST.
      destruct (Z.leb_spec ST (halfSuccess c + 1)).
      -- rewrite (transitionLocked_other options CircuitHalfOpen
                    CircuitClosed) by (auto; reflexivity).
         do 2 eexists. split; [reflexivity |]. left.
         inv_solve.
      -- do 2 eexists. split; [reflexivity |]. right. right.
         inv_solve.
Qed.


End Invariant.

(** X13.  Let both thresholds, as resolved, be at least 1.  The invariant
    [breakerInvariant] holds of a new breaker, and the two synchronized
    steps keep it, whatever the context, the world and the error recorded:
    the admission check and the recording of an outcome both return (they do
    not panic) and leave a breaker for which it holds.  So the failure count
    stays in [0, failureThreshold), the success count in
    [0, successThreshold), and counters are zero outside their state. *)
Theorem breaker_steps_keep_invariant :
  forall (ctx : Ctx) (c : circuitBreaker) (w : W) (err : error),
    1 <= FailureThreshold (applyCircuitBreakerDefaults options) <= maxInt64 ->
    1 <= SuccessThreshold (applyCircuitBreakerDefaults options) <= maxInt64 ->
    breakerInvariant
      (FailureThreshold (applyCircuitBreakerDefaults options))
      (SuccessThreshold (applyCircuitBreakerDefaults options)) c ->
    breakerInvariant
      (FailureThreshold (applyCircuitBreakerDefaults options))
      (SuccessThreshold (applyCircuitBreakerDefaults options))
      newCircuitBreaker /\
    (exists e c' w',
        beforeCall (applyCircuitBreakerDefaults options) ctx c w
        = Ok (e, c', w') /\
        breakerInvariant
          (FailureThreshold (applyCircuitBreakerDefaults options))
          (SuccessThreshold (applyCircuitBreakerDefaults options)) c') /\
    (exists c' w',
        afterCall (applyCircuitBreakerDefaults options) err c w
        = Ok (c', w') /\
        breakerInvariant
          (FailureThreshold (applyCircuitBreakerDefaults options))
          (SuccessThreshold (applyCircuitBreakerDefaults options)) c').
Proof.
  intros ctx c w err HF HS Hinv. split; [| split].
  - left. inv_solve.
  - apply beforeCall_keeps_invariant; assumption.
  - apply afterCall_keeps_invariant; assumption.
Qed.

(** X14.  applyCircuitBreakerDefaults replaces a zero failure threshold by
    5, a zero success threshold by 1 and a zero open timeout by 30 s, keeps
    every other value, negative ones included, makes the trip predicate
    ("any non-nil error" by default) and the clock non-nil, leaves the
    observer alone, and applied twice changes nothing more. *)
Theorem applyCircuitBreakerDefaults_fills_zero_fields :
  FailureThreshold (applyCircuitBreakerDefaults options)
  = (if FailureThreshold options =? 0 then 5 else FailureThreshold options) /\
  SuccessThreshold (applyCircuitBreakerDefaults options)
  = (if SuccessThreshold options =? 0 then 1 else SuccessThreshold options) /\
  OpenTimeout (applyCircuitBreakerDefaults options)
  = (if OpenTimeout options =? 0 then 30 * Second else OpenTimeout options) /\
  (ShouldTrip options = None ->
   tripPredicate options None = false /\
   forall e, tripPredicate options (Some e) = true) /\
  ShouldTrip (applyCircuitBreakerDefaults options)
  = Some (tripPredicate options) /\
  Now (applyCircuitBreakerDefaults options) = Some (breakerClock options) /\
  OnStateChange (applyCircuitBreakerDefaults options)
  = OnStateChange options /\
  applyCircuitBreakerDefaults (applyCircuitBreakerDefaults options)
  = applyCircuitBreakerDefaults options.
Proof.
  repeat split.
  - unfold tripPredicate. rewrite H. reflexivity.
  - intros e. unfold tripPredicate. rewrite H. reflexivity.
  - apply ShouldTrip_resolved.
  - apply Now_resolved.
  - destruct options as [ft st ot trip obs now].
    unfold applyCircuitBreakerDefaults.
    cbn [FailureThreshold SuccessThreshold OpenTimeout ShouldTrip
         OnStateChange Now DefaultCircuitBreakerOptions].
    f_equal.
    + destruct (Z.eqb_spec ft 0) as [-> | H]; [reflexivity |].
      destruct (Z.eqb_spec ft 0); [contradiction | reflexivity].
    + destruct (Z.eqb_spec st 0) as [-> | H]; [reflexivity |].
      destruct (Z.eqb_spec st 0); [contradiction | reflexivity].
    + destruct (Z.eqb_spec ot 0) as [-> | H]; [reflexivity |].
      destruct (Z.eqb_spec ot 0); [contradiction | reflexivity].
    + destruct trip; reflexivity.
    + destruct now; reflexivity.
Qed.

End BreakerMoreFacts.

Lemma breaker_returns_operation_outcome_or_sentinel_witness :
  (exists w1 w2, simSucceeds Background w1 = Ok ((Some 123%nat, None), w2)) \/
  (exists e, ctxErr Background simStart = Some e /\
             (Some 123%nat, None) = (None, Some e) /\
             (newCircuitBreaker, simTick simStart)
             = (newCircuitBreaker, simStart)) \/
  (Some 123%nat, None) = (None, Some ErrCircuitOpen) \/
  (Some 123%nat, None) = (None, Some ErrCircuitHalfOpenBusy).
Proof.
  apply (breaker_returns_operation_outcome_or_sentinel (RT := simRuntime)
           simBreakerOptions simSucceeds Background newCircuitBreaker
           simStart).
  reflexivity.
Defined.

Lemma closed_success_resets_benign_error_keeps_witness :
  let c := setFailures newCircuitBreaker 1 in
  CircuitBreaker simBreakerOptions simSucceeds Background (c, simStart)
  = Ok ((Some 123%nat, None), (newCircuitBreaker, simTick simStart)) /\
  CircuitBreaker simFilterOptions simFailsBenign Background
    (newCircuitBreaker, simStart)
  = Ok ((None, Some (OpError 0)), (newCircuitBreaker, simTick simStart)).
Proof.
  intros c. split.
  - destruct (closed_success_resets_benign_error_keeps (RT := simRuntime)
                simBreakerOptions simSucceeds Background c simStart
                eq_refl eq_refl) as [Hok _].
    apply (Hok (Some 123%nat) (simTick simStart)). reflexivity.
  - destruct (closed_success_resets_benign_error_keeps (RT := simRuntime)
                simFilterOptions simFailsBenign Background newCircuitBreaker
                simStart eq_refl eq_refl) as [_ Hbenign].
    apply (Hbenign None (OpError 0) (simTick simStart)); reflexivity.
Defined.


Lemma breaker_steps_keep_invariant_witness :
  breakerInvariant 2 1 newCircuitBreaker /\
  (exists e c' w',
      beforeCall (applyCircuitBreakerDefaults simBreakerOptions) Background
        (opened 0) (simAdvance (10 * Second) simStart) = Ok (e, c', w') /\
      breakerInvariant 2 1 c') /\
  (exists c' w',
      afterCall (applyCircuitBreakerDefaults simBreakerOptions)
        (Some (OpError 1)) (opened 0) (simAdvance (10 * Second) simStart)
      = Ok (c', w') /\
      breakerInvariant 2 1 c').
Proof.
  apply (breaker_steps_keep_invariant (RT := simRuntime) simBreakerOptions
           Background (opened 0) (simAdvance (10 * Second) simStart)
           (Some (OpError 1))).
  - cbn. unfold maxInt64. lia.
  - cbn. unfold maxInt64. lia.
  - right. left. repeat split.
Defined.

Lemma applyCircuitBreakerDefaults_fills_zero_fields_witness :
  tripPredicate simBreakerOptions None = false /\
  forall e, tripPredicate simBreakerOptions (Some e) = true.
Proof.
  destruct (applyCircuitBreakerDefaults_fills_zero_fields (RT := simRuntime)
              simBreakerOptions) as (_ & _ & _ & Htrip & _).
  apply Htrip. reflexivity.
Defined.

(* ===================================================================== *)
(** ** Rate limiter: defaults, outcomes, NaN *)
(* ===================================================================== *)

Section RateLimitMoreFacts.

Context {W Ctx A : Type} {RT : Runtime W Ctx}.

Variable options : RateLimitOptions (W := W).

Lemma f64ltb_nan_r (x : float64) : f64ltb x S754_nan = false.
Proof. destruct x; reflexivity. Qed.

Lemma f64leb_nan_r (x : float64) : f64leb x S754_nan = false.
Proof. destruct x; reflexivity. Qed.

Lemma f64add_nan_r (x : float64) : f64add x S754_nan = S754_nan.
Proof. destruct x; reflexivity. Qed.

(** X15.  applyRateLimitDefaults replaces a rate that compares <= 0 by 10
    and a burst <= 0 by 10, keeps every other value -- a NaN rate and an
    infinite one are kept --, and makes the clock non-nil.  So the resolved
    burst is at least 1 and the resolved rate never compares <= 0; applied
    twice it changes nothing more. *)
Theorem applyRateLimitDefaults_resolves :
  Rate (applyRateLimitDefaults options)
  = (if f64leb (Rate options) (f64ofInt 0) then f64ofInt 10
     else Rate options) /\
  Burst (applyRateLimitDefaults options)
  = (if Burst options <=? 0 then 10 else Burst options) /\
  RateLimitNow (applyRateLimitDefaults options)
  = Some (rateLimitClock options) /\
  1 <= Burst (applyRateLimitDefaults options) /\
  f64leb (Rate (applyRateLimitDefaults options)) (f64ofInt 0) = false /\
  (Rate options = S754_nan \/ Rate options = S754_infinity false ->
   Rate (applyRateLimitDefaults options) = Rate options) /\
  applyRateLimitDefaults (applyRateLimitDefaults options)
  = applyRateLimitDefaults options.
Proof.
  assert (Hform :
            applyRateLimitDefaults options
            = {| Rate := if f64leb (Rate options) (f64ofInt 0)
                         then f64ofInt 10 else Rate options;
                 Burst := if Burst options <=? 0 then 10 else Burst options;
                 RateLimitNow := Some (rateLimitClock options) |}).
  { unfold applyRateLimitDefaults, rateLimitClock.
    destruct options as [r b now]. cbn [RateLimitNow Burst Rate].
    destruct (f64leb r (f64ofInt 0)); cbn [RateLimitNow Burst Rate];
      destruct (b <=? 0); cbn [RateLimitNow Burst Rate];
      destruct now; reflexivity. }
  assert (Hrate : f64leb (if f64leb (Rate options) (f64ofInt 0)
                          then f64ofInt 10 else Rate options) (f64ofInt 0)
                  = false).
  { destruct (f64leb (Rate options) (f64ofInt 0)) eqn:Hr;
      [reflexivity | exact Hr]. }
  assert (Hburst : ((if Burst options <=? 0 then 10 else Burst options)
                    <=? 0) = false).
  { destruct (Z.leb_spec (Burst options) 0); [reflexivity |].
    apply Z.leb_gt. lia. }
  rewrite Hform. cbn [Rate Burst RateLimitNow].
  split; [reflexivity |]. split; [reflexivity |]. split; [reflexivity |].
  split; [apply Z.leb_gt in Hburst; lia |].
  split; [exact Hrate |].
  split.
  - intros [Hr | Hr]; rewrite Hr; reflexivity.
  - unfold applyRateLimitDefaults at 1. cbn [Rate Burst RateLimitNow].
    rewrite Hrate. cbn [Rate Burst RateLimitNow]. rewrite Hburst.
    reflexivity.
Qed.

(** X16.  The limiter never rewrites an outcome.  Whatever a call through
    it returns is the outcome of the wrapped operation, result and error as
    they are, or a nil result with the context's error (bucket and world
    untouched), or a nil result with ErrRateLimitExceeded in the world it
    was called in. *)
Theorem rateLimit_returns_operation_outcome_or_sentinel :
  forall (next : Handler W Ctx A) (ctx : Ctx) (b : bucket) (w : W)
         (out : Outcome A) (b' : bucket) (w' : W),
    RateLimit options next ctx (b, w) = Ok (out, (b', w')) ->
    next ctx w = Ok (out, w') \/
    (exists e, ctxErr ctx w = Some e /\ out = (None, Some e) /\
               b' = b /\ w' = w) \/
    (out = (None, Some ErrRateLimitExceeded) /\ w' = w).
Proof.
  intros next ctx b w out b' w'. unfold RateLimit.
  destruct (ctxErr ctx w) as [e |].
  - intros [= <- <- <-]. right. left. exists e. auto.
  - destruct (allow (applyRateLimitDefaults options) b w)
      as [[ok b1] | m]; cbn [bind]; [| discriminate].
    destruct ok; cbn [negb].
    + destruct (next ctx w) as [[out1 w1] | m]; cbn [bind];
        [| discriminate].
      intros [= <- <- <-]. left. reflexivity.
    + intros [= <- <- <-]. right. right. auto.
Qed.

(** X17.  Not-a-number tokens.  A bucket whose token count is NaN rejects
    every call, whatever the clock and the rate, and stays NaN; and with an
    infinite rate a call made at the very clock reading of the previous
    check turns any bucket into such a one (the refill is 0 * Inf). *)
Theorem rateLimit_nan_bucket_rejects_forever :
  forall (next : Handler W Ctx A) (ctx : Ctx),
    (forall w, ctxErr ctx w = None) ->
    (forall (t : Time) (w : W),
        RateLimit options next ctx ({| tokens := S754_nan; lastAt := t |}, w)
        = Ok ((None, Some ErrRateLimitExceeded),
              ({| tokens := S754_nan;
                  lastAt := rateLimitClock options w |}, w))) /\
    (forall (j : nat) (t : Time) (w : W),
        exists t',
          callTimes (RateLimit options next) ctx j
            ({| tokens := S754_nan; lastAt := t |}, w)
          = Ok (repeat (None, Some ErrRateLimitExceeded) j,
                ({| tokens := S754_nan; lastAt := t' |}, w))) /\
    (Rate (applyRateLimitDefaults options) = S754_infinity false ->
     forall (b : bucket) (w : W),
       rateLimitClock options w = lastAt b ->
       RateLimit options next ctx (b, w)
       = Ok ((None, Some ErrRateLimitExceeded),
             ({| tokens := S754_nan; lastAt := lastAt b |}, w))).
Proof.
  intros next ctx Hctx.
  assert (Hone : forall (t : Time) (w : W),
             RateLimit options next ctx
               ({| tokens := S754_nan; lastAt := t |}, w)
             = Ok ((None, Some ErrRateLimitExceeded),
                   ({| tokens := S754_nan;
                       lastAt := rateLimitClock options w |}, w))).
  { intros t w. unfold RateLimit. rewrite Hctx. unfold allow.
    rewrite (RateLimitNow_resolved options). cbn [callNow bind tokens lastAt].
    change (f64add S754_nan ?x) with S754_nan.
    rewrite f64ltb_nan_r, f64leb_nan_r. reflexivity. }
  split; [exact Hone |]. split.
  - induction j as [| j IH]; intros t w.
    + exists t. reflexivity.
    + cbn [callTimes repeat]. rewrite Hone. cbn [bind].
      destruct (IH (rateLimitClock options w) w) as [t' Hrun].
      rewrite Hrun. cbn [bind]. exists t'. reflexivity.
  - intros Hinf b w Hclock. unfold RateLimit. rewrite Hctx. unfold allow.
    rewrite (RateLimitNow_resolved options). cbn [callNow bind].
    rewrite Hclock, Sub_self, Hinf.
    change (f64mul (Seconds 0) (S754_infinity false)) with S754_nan.
    rewrite f64add_nan_r, f64ltb_nan_r, f64leb_nan_r. reflexivity.
Qed.

End RateLimitMoreFacts.

Lemma applyRateLimitDefaults_resolves_witness :
  Rate (applyRateLimitDefaults (simRateOptions (S754_infinity false) 0))
  = S754_infinity false /\
  Burst (applyRateLimitDefaults (simRateOptions (S754_infinity false) 0))
  = 10.
Proof.
  destruct (applyRateLimitDefaults_resolves (RT := simRuntime)
              (simRateOptions (S754_infinity false) 0))
    as (_ & Hb & _ & _ & _ & Hkeep & _).
  split; [| exact Hb].
  apply Hkeep. right. reflexivity.
Defined.

Lemma rateLimit_returns_operation_outcome_or_sentinel_witness :
  let b := {| tokens := f64ofInt 1; lastAt := 0 |} in
  let b' := {| tokens := f64ofInt 0; lastAt := 0 |} in
  simSucceeds Background simStart
  = Ok ((Some 123%nat, None), simTick simStart) \/
  (exists e, ctxErr Background simStart = Some e /\
             (Some 123%nat, None) = (None, Some e) /\
             b' = b /\ simTick simStart = simStart) \/
  ((Some 123%nat, None) = (None, Some ErrRateLimitExceeded) /\
   simTick simStart = simStart).
Proof.
  intros b b'.
  apply (rateLimit_returns_operation_outcome_or_sentinel (RT := simRuntime)
           (simRateOptions (f64ofInt 1) 1) simSucceeds Background b simStart
           (Some 123%nat, None) b' (simTick simStart)).
  vm_compute. reflexivity.
Defined.

Lemma rateLimit_nan_bucket_rejects_forever_witness :
  RateLimit (simRateOptions (S754_infinity false) 5) simSucceeds Background
    ({| tokens := f64ofInt 5; lastAt := 0 |}, simStart)
  = Ok ((None, Some ErrRateLimitExceeded),
        ({| tokens := S754_nan; lastAt := 0 |}, simStart)) /\
  exists t',
    callTimes (RateLimit (simRateOptions (S754_infinity false) 5)
                 simSucceeds) Background 3
      ({| tokens := S754_nan; lastAt := 0 |},
       simAdvance (10 * Second) simStart)
    = Ok (repeat (None, Some ErrRateLimitExceeded) 3,
          ({| tokens := S754_nan; lastAt := t' |},
           simAdvance (10 * Second) simStart)).
Proof.
  destruct (rateLimit_nan_bucket_rejects_forever (RT := simRuntime)
              (simRateOptions (S754_infinity false) 5) simSucceeds Background)
    as (_ & Hall & Hinf); [intros w; reflexivity |].
  split.
  - apply (Hinf eq_refl {| tokens := f64ofInt 5; lastAt := 0 |} simStart).
    reflexivity.
  - apply Hall.
Defined.

(* ===================================================================== *)
(** ** Retry: the outcomes it can return *)
(* ===================================================================== *)

Section RetryOutcomeFacts.

Context {W Ctx A : Type} {RT : Runtime W Ctx}.

Lemma retryLoop_outcome (opts : RetryOptions) (next : Handler W Ctx A)
    (ctx : Ctx) (remaining : nat) :
  forall (attempt : Z) (lastErr : error) (w w' : W) (out : Outcome A),
    retryLoop opts next ctx remaining attempt lastErr w = Ok (out, w') ->
    (out = (None, lastErr) /\ w' = w) \/
    (exists wa r, next ctx wa = Ok ((r, None), w') /\ out = (r, None)) \/
    (exists wa wb r e, next ctx wa = Ok ((r, Some e), wb) /\
                       out = (None, Some e)) \/
    (exists e, ctxErr ctx w' = Some e /\ out = (None, Some e)).
Proof.
  induction remaining as [| remaining IH];
    intros attempt lastErr w w' out; cbn [retryLoop].
  - intros [= <- <-]. left. auto.
  - destruct (ctxErr ctx w) as [ce |] eqn:Hctx.
    { intros [= <- <-]. right. right. right. exists ce. auto. }
    destruct (next ctx w) as [[[r err] w1] | m] eqn:Hn; cbn [bind];
      [| discriminate].
    destruct err as [e |].
    + destruct (attempt =? wrap64 (MaxAttempts opts - 1)).
      * intros [= <- <-]. right. right. left. exists w, w1, r, e. auto.
      * destruct (computeDelay attempt opts w1) as [[d w2] | m];
          cbn [bind]; [| discriminate].
        destruct (ctxErr ctx (afterWait d ctx w2)) as [ce |] eqn:Hdone.
        { intros [= <- <-]. right. right. right. exists ce. auto. }
        intros Hrun. apply IH in Hrun.
        destruct Hrun as [[-> _] | Hrest]; [| right; exact Hrest].
        right. right. left. exists w, w1, r, e. auto.
    + intros [= <- <-]. right. left. exists w, r. auto.
Qed.

Lemma retryLoop_outcome_entered (opts : RetryOptions)
    (next : Handler W Ctx A) (ctx : Ctx) (remaining : nat) :
  forall (attempt : Z) (lastErr : error) (w w' : W) (out : Outcome A),
    retryLoop opts next ctx (S remaining) attempt lastErr w = Ok (out, w') ->
    (exists wa r, next ctx wa = Ok ((r, None), w') /\ out = (r, None)) \/
    (exists wa wb r e, next ctx wa = Ok ((r, Some e), wb) /\
                       out = (None, Some e)) \/
    (exists e, ctxErr ctx w' = Some e /\ out = (None, Some e)).
Proof.
  intros attempt lastErr w w' out. cbn [retryLoop].
  destruct (ctxErr ctx w) as [ce |] eqn:Hctx.
  { intros [= <- <-]. right. right. exists ce. auto. }
  destruct (next ctx w) as [[[r err] w1] | m] eqn:Hn; cbn [bind];
    [| discriminate].
  destruct err as [e |].
  - destruct (attempt =? wrap64 (MaxAttempts opts - 1)).
    + intros [= <- <-]. right. left. exists w, w1, r, e. auto.
    + destruct (computeDelay attempt opts w1) as [[d w2] | m];
        cbn [bind]; [| discriminate].
      destruct (ctxErr ctx (afterWait d ctx w2)) as [ce |] eqn:Hdone.
      { intros [= <- <-]. right. right. exists ce. auto. }
      intros Hrun. apply retryLoop_outcome in Hrun.
      destruct Hrun as [[-> _] | Hrest]; [| exact Hrest].
      right. left. exists w, w1, r, e. auto.
  - intros [= <- <-]. left. exists w, r. auto.
Qed.

(** X18.  Retry never rewrites an error.  Whatever Retry returns is the
    successful outcome of an invocation of the operation, result included;
    or a nil result with the error of an invocation that failed; or a nil
    result with the context's error, in a world in which the context is
    done; or, only when no attempt is allowed and the loop is not entered,
    nil with a nil error. *)
Theorem Retry_returns_operation_outcome_or_context_error :
  forall (options : RetryOptions) (next : Handler W Ctx A) (ctx : Ctx)
         (w w' : W) (out : Outcome A),
    Retry options next ctx w = Ok (out, w') ->
    (exists wa r, next ctx wa = Ok ((r, None), w') /\ out = (r, None)) \/
    (exists wa wb r e, next ctx wa = Ok ((r, Some e), wb) /\
                       out = (None, Some e)) \/
    (exists e, ctxErr ctx w' = Some e /\ out = (None, Some e)) \/
    (MaxAttempts (applyDefaults options) <= 0 /\
     out = (None, None) /\ w' = w).
Proof.
  intros options next ctx w w' out. unfold Retry. intros Hrun.
  destruct (Z.to_nat (MaxAttempts (applyDefaults options))) as [| k] eqn:Hk.
  - cbn [retryLoop] in Hrun. injection Hrun as <- <-.
    right. right. right. repeat split. lia.
  - apply retryLoop_outcome_entered in Hrun.
    destruct Hrun as [H | [H | H]]; auto.
Qed.

End RetryOutcomeFacts.

Lemma Retry_returns_operation_outcome_or_context_error_witness :
  (exists wa r, simFails Background wa
                = Ok ((r, None),
                      {| simClock := 20 * Millisecond; simCancel := None;
                         simDraw := 0; simCalls := 3 |}) /\
                (None (A := nat), Some (OpError 3)) = (r, None)) \/
  (exists wa wb r e, simFails Background wa = Ok ((r, Some e), wb) /\
                     (None (A := nat), Some (OpError 3))
                     = (None, Some e)) \/
  (exists e, ctxErr Background
               {| simClock := 20 * Millisecond; simCancel := None;
                  simDraw := 0; simCalls := 3 |} = Some e /\
             (None (A := nat), Some (OpError 3)) = (None, Some e)) \/
  (MaxAttempts (applyDefaults fixedRetryOptions) <= 0 /\
   (None (A := nat), Some (OpError 3)) = (None, None) /\
   {| simClock := 20 * Millisecond; simCancel := None;
      simDraw := 0; simCalls := 3 |} = simStart).
Proof.
  apply (Retry_returns_operation_outcome_or_context_error (RT := simRuntime)
           fixedRetryOptions simFails Background simStart).
  reflexivity.
Defined.

(* ===================================================================== *)
(** ** Circuit breaker: calls in sequence *)
(* ===================================================================== *)

Section BreakerSequentialFacts.

Context {W Ctx A : Type} {RT : Runtime W Ctx}.

Variable options : CircuitBreakerOptions (W := W).

Hypothesis failure_threshold :
  1 <= FailureThreshold (applyCircuitBreakerDefaults options) <= maxInt64.
Hypothesis success_threshold :
  1 <= SuccessThreshold (applyCircuitBreakerDefaults options) <= maxInt64.




End BreakerSequentialFacts.


(* ===================================================================== *)
(** ** Retry: more on delays and single attempts *)
(* ===================================================================== *)

Section DelayMoreFacts.

Context {W Ctx A : Type} {RT : Runtime W Ctx}.

Lemma backoffDelay_formula (attempt : Z) (opts : RetryOptions) :
  0 <= attempt < 63 ->
  inInt64 (formulaDelay attempt opts) ->
  backoffDelay attempt opts = formulaDelay attempt opts.
Proof.
  intros Ha. unfold backoffDelay, formulaDelay.
  destruct (String.eqb (Backoff opts) BackoffFixed); [reflexivity |].
  destruct (String.eqb (Backoff opts) BackoffLinear).
  - intros Hin. rewrite (wrap64_small (attempt + 1))
      by (unfold minInt64, maxInt64; lia).
    apply wrap64_small. exact Hin.
  - destruct (String.eqb (Backoff opts) BackoffExponential);
      [| reflexivity].
    intros Hin. rewrite shl64_one by assumption.
    apply wrap64_small. exact Hin.
Qed.

Lemma formulaDelay_mono (a b : Z) (opts : RetryOptions) :
  0 <= InitialDelay opts -> 0 <= a <= b ->
  0 <= formulaDelay a opts <= formulaDelay b opts.
Proof.
  intros Hd Hab. unfold formulaDelay.
  destruct (String.eqb (Backoff opts) BackoffFixed); [lia |].
  destruct (String.eqb (Backoff opts) BackoffLinear); [nia |].
  destruct (String.eqb (Backoff opts) BackoffExponential); [| lia].
  assert (0 < 2 ^ a) by (apply Z.pow_pos_nonneg; lia).
  assert (2 ^ a <= 2 ^ b) by (apply Z.pow_le_mono_r; lia).
  nia.
Qed.

(** X20.  Backoff does not shrink.  With jitter off, an initial delay that
    is not negative, and attempts a <= b for which the product of the later
    one is still an int64, the delay computed for attempt a is at most the
    delay computed for attempt b. *)
Theorem computeDelay_nondecreasing :
  forall (opts : RetryOptions) (a b : Z) (w : W),
    Jitter opts = false ->
    0 <= InitialDelay opts ->
    0 <= a <= b -> b < 63 ->
    inInt64 (formulaDelay b opts) ->
    exists da db,
      computeDelay a opts w = Ok (da, w) /\
      computeDelay b opts w = Ok (db, w) /\
      da <= db.
Proof.
  intros opts a b w Hj Hd Hab Hb Hin.
  pose proof (formulaDelay_mono a b opts Hd Hab) as Hmono.
  rewrite !computeDelay_no_jitter by assumption.
  rewrite (backoffDelay_formula b opts) by (auto; lia).
  rewrite (backoffDelay_formula a opts)
    by (try lia; unfold inInt64, minInt64, maxInt64 in *; lia).
  do 2 eexists. split; [reflexivity |]. split; [reflexivity |]. lia.
Qed.

(** X21.  One attempt.  When the resolved MaxAttempts is 1 and the context
    is not cancelled at entry, Retry is one invocation of the operation: a
    success is returned as it is, a failure as nil with the operation's
    error, a panic as the panic.  No delay is computed, so this holds for
    every delay and jitter setting. *)
Theorem Retry_single_attempt :
  forall (options : RetryOptions) (next : Handler W Ctx A) (ctx : Ctx)
         (w : W),
    MaxAttempts (applyDefaults options) = 1 ->
    ctxErr ctx w = None ->
    Retry options next ctx w
    = match next ctx w with
      | Ok ((r, None), w1) => Ok ((r, None), w1)
      | Ok ((r, Some e), w1) => Ok ((None, Some e), w1)
      | Panic m => Panic m
      end.
Proof.
  intros options next ctx w Hone Hctx. unfold Retry. rewrite Hone.
  change (Z.to_nat 1) with 1%nat. cbn [retryLoop].
  rewrite Hctx.
  destruct (next ctx w) as [[[r [e |]] w1] | m]; cbn [bind];
    try reflexivity.
  rewrite Hone. reflexivity.
Qed.

End DelayMoreFacts.

Lemma computeDelay_nondecreasing_witness :
  exists da db,
    computeDelay 1 longRetryOptions simStart = Ok (da, simStart) /\
    computeDelay 4 longRetryOptions simStart = Ok (db, simStart) /\
    da <= db.
Proof.
  apply (computeDelay_nondecreasing (RT := simRuntime) longRetryOptions 1 4
           simStart).
  - reflexivity.
  - cbn. lia.
  - lia.
  - lia.
  - unfold inInt64, minInt64, maxInt64. cbn. lia.
Defined.

Lemma Retry_single_attempt_witness :
  Retry {| MaxAttempts := 1; InitialDelay := 1 * Nanosecond; MaxDelay := 0;
           Backoff := BackoffFixed; Jitter := true |}
    simFails Background simStart
  = Ok ((None, Some (OpError 1)), simTick simStart).
Proof.
  apply (Retry_single_attempt (RT := simRuntime)
           {| MaxAttempts := 1; InitialDelay := 1 * Nanosecond; MaxDelay := 0;
              Backoff := BackoffFixed; Jitter := true |}
           simFails Background simStart); reflexivity.
Defined.

(* ===================================================================== *)
(** ** Timeout: the zero duration, and outcomes *)
(* ===================================================================== *)

Section TimeoutMoreFacts.

Context {W Ctx A : Type} {RT : Runtime W Ctx}.

(** X22.  A zero Duration does not mean "no time": Timeout with Duration 0
    is Timeout with the default 5 s.  And an enabled Timeout never rewrites
    an outcome: what it returns is the outcome of the wrapped operation, run
    against the child context, or a nil result with the error of the
    caller's context or of the child context. *)
Theorem Timeout_zero_is_default_and_keeps_outcome :
  forall (options : TimeoutOptions) (next : Handler W Ctx A) (ctx : Ctx)
         (w w' : W) (out : Outcome A),
    0 <= TimeoutDuration options ->
    Timeout options next ctx w = Ok (out, w') ->
    Timeout {| TimeoutDuration := 0 |} next
    = Timeout (A := A) DefaultTimeoutOptions next /\
    let d := TimeoutDuration (applyTimeoutDefaults options) in
    0 < d /\
    (next (WithTimeout ctx d w) w = Ok (out, w') \/
     (exists e, ctxErr ctx w = Some e /\ out = (None, Some e) /\ w' = w) \/
     (exists e, ctxErr (WithTimeout ctx d w) w' = Some e /\
                out = (None, Some e))).
Proof.
  intros options next ctx w w' out Hpos Hrun.
  split; [reflexivity |].
  assert (Hd : 0 < TimeoutDuration (applyTimeoutDefaults options)).
  { unfold applyTimeoutDefaults.
    destruct (Z.eqb_spec (TimeoutDuration options) 0);
      cbn [TimeoutDuration DefaultTimeoutOptions]; unfold Second,
      Millisecond, Nanosecond; lia. }
  cbn zeta. split; [exact Hd |].
  unfold Timeout in Hrun.
  destruct (Z.ltb_spec (TimeoutDuration (applyTimeoutDefaults options)) 0);
    [lia |].
  unfold timeoutHandler in Hrun.
  destruct (ctxErr ctx w) as [e |].
  - injection Hrun as <- <-. right. left. exists e. auto.
  - destruct (next (WithTimeout ctx
                      (TimeoutDuration (applyTimeoutDefaults options)) w) w)
      as [[out1 w1] | m]; cbn [bind] in Hrun; [| discriminate].
    destruct (ctxErr (WithTimeout ctx
                        (TimeoutDuration (applyTimeoutDefaults options)) w)
                w1) as [e |] eqn:Hdone.
    + injection Hrun as <- <-. right. right. exists e. auto.
    + injection Hrun as <- <-. left. reflexivity.
Qed.

End TimeoutMoreFacts.

Lemma Timeout_zero_is_default_and_keeps_outcome_witness :
  Timeout {| TimeoutDuration := 0 |} simSucceeds
  = Timeout DefaultTimeoutOptions simSucceeds.
Proof.
  destruct (Timeout_zero_is_default_and_keeps_outcome (RT := simRuntime)
              {| TimeoutDuration := 0 |} simSucceeds Background simStart
              (simTick simStart) (Some 123%nat, None))
    as [Hzero _].
  - cbn. lia.
  - reflexivity.
  - exact Hzero.
Defined.

(* ===================================================================== *)
(** ** Circuit breaker: negative options *)
(* ===================================================================== *)

Section BreakerNegativeFacts.

Context {W Ctx A : Type} {RT : Runtime W Ctx}.

Variable options : CircuitBreakerOptions (W := W).

(** X23.  Negative options are not replaced by the defaults, and act as the
    smallest setting.  With a negative FailureThreshold a closed breaker with
    a failure count that is not negative opens at the first failure that
    trips, as with threshold 1.  With a negative OpenTimeout an open breaker
    does not reject: whenever the clock is not before the opening time the
    next call is let through as the trial. *)
Theorem breaker_negative_options_act_minimal :
  forall (next : Handler W Ctx A) (ctx : Ctx) (w : W),
    ctxErr ctx w = None ->
    (FailureThreshold options < 0 ->
     FailureThreshold (applyCircuitBreakerDefaults options)
     = FailureThreshold options /\
     forall (c : circuitBreaker) (r : option A) (e : GoError) (w' : W),
       state c = CircuitClosed ->
       0 <= failures c < maxInt64 ->
       next ctx w = Ok ((r, Some e), w') ->
       tripPredicate options (Some e) = true ->
       CircuitBreaker options next ctx (c, w)
       = Ok ((r, Some e),
             (opened (breakerClock options w'),
              observed options CircuitClosed CircuitOpen w'))) /\
    (OpenTimeout options < 0 ->
     OpenTimeout (applyCircuitBreakerDefaults options)
     = OpenTimeout options /\
     forall t : Time,
       0 <= Sub (breakerClock options w) t ->
       beforeCall (applyCircuitBreakerDefaults options) ctx (opened t) w
       = Ok (None,
             {| state := CircuitHalfOpen; openedAt := t; failures := 0;
                halfSuccess := 0; halfInFlight := true |},
             observed options CircuitOpen CircuitHalfOpen w)).
Proof.
  intros next ctx w Hctx. split.
  - intros Hneg.
    assert (Hkeep : FailureThreshold (applyCircuitBreakerDefaults options)
                    = FailureThreshold options).
    { unfold applyCircuitBreakerDefaults.
      destruct options as [ft st ot trip obs now].
      cbn [FailureThreshold SuccessThreshold OpenTimeout ShouldTrip
           OnStateChange Now] in *.
      destruct (Z.eqb_spec ft 0); [lia | reflexivity]. }
    split; [exact Hkeep |].
    intros c r e w' Hs Hf Hn Ht.
    rewrite (closed_failure_step options next ctx c w w' r e Hctx Hs Hn Ht).
    rewrite wrap64_small by (unfold minInt64, maxInt64 in *; lia).
    destruct (Z.leb_spec
                (FailureThreshold (applyCircuitBreakerDefaults options))
                (failures c + 1)); [reflexivity | lia].
  - intros Hneg.
    assert (Hkeep : OpenTimeout (applyCircuitBreakerDefaults options)
                    = OpenTimeout options).
    { unfold applyCircuitBreakerDefaults.
      destruct options as [ft st ot trip obs now].
      cbn [FailureThreshold SuccessThreshold OpenTimeout ShouldTrip
           OnStateChange Now] in *.
      destruct (Z.eqb_spec ot 0); [lia | reflexivity]. }
    split; [exact Hkeep |].
    intros t Hclock.
    unfold beforeCall. rewrite Hctx, (Now_resolved options).
    cbn [callNow bind state opened openedAt]. streq.
    destruct (Z.leb_spec (OpenTimeout (applyCircuitBreakerDefaults options))
                (Sub (breakerClock options w) t)); [| lia].
    rewrite (transitionLocked_other options CircuitOpen CircuitHalfOpen)
      by reflexivity.
    reflexivity.
Qed.

End BreakerNegativeFacts.

Lemma breaker_negative_options_act_minimal_witness :
  CircuitBreaker
    {| FailureThreshold := -1; SuccessThreshold := 1;
       OpenTimeout := 10 * Second; ShouldTrip := None;
       OnStateChange := None; Now := None |}
    simFails Background (newCircuitBreaker, simStart)
  = Ok ((None, Some (OpError 1)),
        (opened (simClock (simTick simStart)), simTick simStart)).
Proof.
  destruct (breaker_negative_options_act_minimal (RT := simRuntime)
              {| FailureThreshold := -1; SuccessThreshold := 1;
                 OpenTimeout := 10 * Second; ShouldTrip := None;
                 OnStateChange := None; Now := None |}
              simFails Background simStart eq_refl) as [Hfail _].
  destruct (Hfail ltac:(cbn; lia)) as [_ Hopen].
  apply (Hopen newCircuitBreaker None (OpError 1) (simTick simStart)).
  - reflexivity.
  - cbn. unfold maxInt64. lia.
  - reflexivity.
  - reflexivity.
Defined.
